(** * Tulip agent: a shallow embedding of the agent loop and its example tools

    The development follows three source files:
    - [tulip/tulip_agent.py]: the class [TulipAgent] ([__init__],
      [search_tools], [__get_response], [query]);
    - [examples/tamims.py]: the demonstration tools [capital] and [language];
    - [src/tulip_agent/prompts.py]: the prompt templates.

    Python objects are modelled as records, exceptions as an inductive type,
    and the mutable agent ([self.messages]) together with the outside world
    (the chat-completion endpoint, the log, the tool library) as an explicit
    state threaded through a small state-and-exception monad.  Loops that the
    source does not bound ([while not response], [while tool_calls]) take a
    fuel argument; a run that exhausts it is reported as still [Running].
    The [logging.info] lines of the source have no effect on the run and are
    left out; [logger.error] in the retry loop is an observed event. *)

From Stdlib Require Import ZArith QArith String Ascii DecimalString.
From stdpp Require Import base option list strings gmap.

#[local] Set Warnings "-register-all".

Local Open Scope string_scope.
Local Open Scope list_scope.

(** ** Values exchanged with the outside world *)

(** What [json.loads] produces.  An object keeps its members in document
    order (a Python [dict] iterates in insertion order). *)
Inductive JSON : Type :=
| JNull
| JBool (b : bool)
| JNumber (lexeme : string)
| JString (s : string)
| JArray (items : list JSON)
| JObject (members : list (string * JSON)).

(** The exceptions the modelled code can meet. *)
Inductive PyExc : Type :=
| AssertionError (msg : string)
| TypeError (msg : string)
| JSONDecodeError (doc : string)
| IndexError
| OpenAIError (detail : string)
| OtherError (detail : string).

(** [except OpenAIError as e] *)
Definition is_OpenAIError (e : PyExc) : bool :=
  match e with OpenAIError _ => true | _ => false end.

(** [tool_call.function.name], [tool_call.function.arguments], [tool_call.id] *)
Record Function := { name : string; arguments : string }.
Record ToolCall := { call_id : string; function : Function }.

(** [response.choices[0].message]: the SDK leaves [tool_calls] at [None] when
    the model requests no call, and [content] at [None] when it only calls. *)
Record ChatCompletionMessage :=
  { content : option string; tool_calls : option (list ToolCall) }.

Record ChatCompletion := { choices : list ChatCompletionMessage }.

(** The dictionaries [query] and [__init__] append to [self.messages]. *)
Record DictMessage :=
  { tool_call_id : option string;
    role : string;
    tool_name : option string;
    text : string }.

(** [self.messages] holds both dictionaries and SDK message objects. *)
Inductive Message : Type :=
| Dict (d : DictMessage)
| Assistant (m : ChatCompletionMessage).

Definition plain_message (r c : string) : Message :=
  Dict {| tool_call_id := None; role := r; tool_name := None; text := c |}.

Definition tool_message (i func c : string) : Message :=
  Dict {| tool_call_id := Some i; role := "tool"; tool_name := Some func; text := c |}.

(** [tool_choice]: a literal (["none"], ["auto"]) or
    [{"type": "function", "function": {"name": n}}]. *)
Inductive ToolChoice : Type :=
| Literal (s : string)
| ForcedFunction (n : string).

(** The keyword arguments of [chat.completions.create]. *)
Record Request :=
  { req_model : string;
    req_messages : list Message;
    req_tools : list JSON;
    req_temperature : Q;
    req_tool_choice : ToolChoice }.

(** What one attempt on the endpoint does. *)
Inductive ApiOutcome : Type :=
| Completed (r : ChatCompletion)
| Raised (e : PyExc).

(** Observable actions, in the order they happen. *)
Inductive Event : Type :=
| EvCreate (req : Request)
| EvLogError (e : PyExc)
| EvSearch (problem_description : JSON) (top_k : Z)
| EvExecute (function_name : string) (function_args : JSON).

(** ** The tool library (not part of the sources; taken as given)

    [search] stands for [ToolLibrary.search(problem_description=, top_k=)],
    of whose result the agent reads [["documents"]]; [execute] for
    [ToolLibrary.execute(function_name=, function_args=)]; [str] for Python's
    [str] on a tool's result. *)
Record QueryResult := { documents : list (list string) }.

Record ToolLibrary :=
  { Value : Type;
    str : Value -> string;
    search : JSON -> Z -> PyExc + QueryResult;
    execute : string -> JSON -> PyExc + Value }.

(** ** The agent *)

(** The fields [__init__] sets and nothing changes afterwards.
    [instructions] is [TULIP_PROMPT], which the prompts file at hand does not
    define: it stays a field like the others. *)
Record TulipAgent :=
  { model : string;
    temperature : Q;
    instructions : string;
    tool_library : ToolLibrary;
    top_k_functions : Z }.

(** [self.messages], and the outside world: how many attempts the endpoint
    has served and what has been observed so far. *)
Record State :=
  { messages : list Message;
    attempts : nat;
    events : list Event }.

Definition append (m : Message) (s : State) : State :=
  {| messages := messages s ++ [m]; attempts := attempts s; events := events s |}.

Definition emit (e : Event) (s : State) : State :=
  {| messages := messages s; attempts := attempts s; events := events s ++ [e] |}.

Definition attempt (s : State) : State :=
  {| messages := messages s; attempts := S (attempts s); events := events s |}.

(** ** Computations *)

Inductive Outcome (A : Type) : Type :=
| Return (a : A) (s : State)
| Throw (e : PyExc) (s : State)
| Running (s : State).
Arguments Return {A} a s.
Arguments Throw {A} e s.
Arguments Running {A} s.

Definition M (A : Type) : Type := State -> Outcome A.

Definition ret {A} (a : A) : M A := fun s => Return a s.
Definition raise {A} (e : PyExc) : M A := fun s => Throw e s.
Definition bind {A B} (c : M A) (k : A -> M B) : M B :=
  fun s =>
    match c s with
    | Return a s' => k a s'
    | Throw e s' => Throw e s'
    | Running s' => Running s'
    end.
Definition modify (f : State -> State) : M unit := fun s => Return tt (f s).
Definition lift {A} (r : PyExc + A) : M A :=
  match r with inl e => raise e | inr a => ret a end.

Notation "'let!' x ':=' c 'in' k" := (bind c (fun x => k))
  (at level 10, x name, c at level 100, k at level 200).
Notation "c >> k" := (bind c (fun _ => k))
  (at level 65, right associativity).

(** The state an outcome was reached in. *)
Definition final_state {A} (o : Outcome A) : State :=
  match o with Return _ s | Throw _ s | Running s => s end.

(** The run is over, and if it returned a value, that value is [a]. *)
Definition ends_with {A} (a : A) (o : Outcome A) : Prop :=
  match o with
  | Return a' _ => a' = a
  | Throw _ _ => True
  | Running _ => False
  end.

(** [s'] comes after [s]: the transcript and the observations of [s] are
    still there, in place, at the front of those of [s']. *)
Definition extends (s s' : State) : Prop :=
  messages s `prefix_of` messages s' /\ events s `prefix_of` events s'.

(** A computation that only ever adds to the transcript and the
    observations, however it ends. *)
Definition steady {A} (c : M A) : Prop :=
  forall s, extends s (final_state (c s)).

(** ** Python strings

    A Python [str] is a sequence of code points.  A [string] holds its UTF-8
    encoding, byte by byte (a lone surrogate, which [json.loads] can produce,
    on three bytes like the code points around it): two strings are equal
    when their code points are, and concatenating them concatenates the code
    points.  [chr] is the string of one code point, as in Python, and
    [text_of] the string of a sequence of code points. *)
Definition utf8_onto (cp : N) (rest : string) : string :=
  let byte n := String (ascii_of_N n) in
  if (cp <? 128)%N then byte cp rest
  else if (cp <? 2048)%N then
    byte (192 + cp / 64)%N (byte (128 + cp mod 64)%N rest)
  else if (cp <? 65536)%N then
    byte (224 + cp / 4096)%N
      (byte (128 + cp / 64 mod 64)%N (byte (128 + cp mod 64)%N rest))
  else
    byte (240 + cp / 262144 mod 8)%N
      (byte (128 + cp / 4096 mod 64)%N
         (byte (128 + cp / 64 mod 64)%N (byte (128 + cp mod 64)%N rest))).

Definition chr (cp : N) : string := utf8_onto cp EmptyString.

Definition text_of (cps : list N) : string := foldr utf8_onto EmptyString cps.

(** In UTF-8 a code point is one leading byte and the continuation bytes
    that follow it; the continuation bytes are the bytes 10xxxxxx. *)
Definition is_continuation (b : ascii) : bool :=
  ((128 <=? N_of_ascii b) && (N_of_ascii b <? 192))%N.

(** The continuation bytes a string starts with. *)
Fixpoint continuation (s : string) : string :=
  match s with
  | EmptyString => EmptyString
  | String b rest => if is_continuation b then String b (continuation rest) else EmptyString
  end.

(** [list(s)]: the code points of [s], each as a string of one character
    (every leading byte with the continuation bytes behind it). *)
Fixpoint characters (s : string) : list string :=
  match s with
  | EmptyString => []
  | String b rest =>
      if is_continuation b then characters rest
      else String b (continuation rest) :: characters rest
  end.

(** ** Strings of the source *)

Definition nl : string := String (ascii_of_nat 10) EmptyString.

(** [str(n)] for a length. *)
Definition str_nat (n : nat) : string := NilEmpty.string_of_uint (Nat.to_uint n).

(** An f-string prints [None] for a missing content. *)
Definition str_content (c : option string) : string :=
  match c with Some s => s | None => "None" end.

(** The user message of the decomposition step (tulip_agent.py, 112-115). *)
Definition decomposition_request (prompt : string) : string :=
  "Considering the following user request, what are the necessary atomic actions "
  +:+ "you need to execute?" +:+ nl +:+ " `" +:+ prompt +:+ "`" +:+ nl
  +:+ "Return a numbered list of steps.".

(** [TASK_DECOMPOSITION.format(prompt=prompt)] of prompts.py (94-98). *)
Definition TASK_DECOMPOSITION (prompt : string) : string :=
  "Considering the following user request, what are the necessary atomic actions you need to execute?"
  +:+ nl +:+ "`" +:+ prompt +:+ "`" +:+ nl
  +:+ "Return a numbered list of steps." +:+ nl.

Definition search_request : string :=
  "Now search for appropriate tools for each of these steps.".

Definition solve_request (steps : option string) : string :=
  "Now use the tools to fulfill the user request. "
  +:+ "Adhere exactly to the following steps:" +:+ nl
  +:+ str_content steps +:+ nl
  +:+ "Execute the tool calls one at a time.".

(** [self.search_tools_description] (tulip_agent.py, 45-64). *)
Definition search_tools_description : JSON :=
  JObject
    [ ("type", JString "function");
      ("function",
       JObject
         [ ("name", JString "search_tools");
           ("description", JString "Search for tools in your tool library.");
           ("parameters",
            JObject
              [ ("type", JString "object");
                ("properties",
                 JObject
                   [ ("action_descriptions",
                      JObject
                        [ ("type", JString "array");
                          ("items", JObject [ ("type", JString "string") ]);
                          ("description",
                           JString "A list of textual description for the actions you want to execute.") ]) ]);
                ("required", JArray [ JString "problem_description" ]) ]) ]) ].

(** Subscripting a JSON object, [d[k]]. *)
Fixpoint assoc (k : string) (members : list (string * JSON)) : option JSON :=
  match members with
  | [] => None
  | (k', v) :: rest => if String.eqb k k' then Some v else assoc k rest
  end.

Definition get (k : string) (j : JSON) : option JSON :=
  match j with JObject members => assoc k members | _ => None end.

Definition keys (j : JSON) : list string :=
  match j with JObject members => map fst members | _ => [] end.

Definition strings_of (j : JSON) : list string :=
  match j with
  | JArray items => omap (fun i => match i with JString s => Some s | _ => None end) items
  | _ => []
  end.

(** The parameter names the published schema declares, and those it requires. *)
Definition schema_parameters : option JSON :=
  get "function" search_tools_description ≫= get "parameters".
Definition schema_properties : list string :=
  default [] (keys <$> (schema_parameters ≫= get "properties")).
Definition schema_required : list string :=
  default [] (strings_of <$> (schema_parameters ≫= get "required")).

(** ** The example tools (examples/tamims.py) *)

Definition capitals : gmap string string :=
  {[ "France" := "Paris"; "Germany" := "Berlin"; "Italy" := "Rome"; "Japan" := "Tokyo" ]}.

Definition capital (country : string) : string :=
  default "Unknown" (capitals !! country).

Definition languages : gmap string string :=
  {[ "France" := "French"; "Germany" := "German"; "Italy" := "Italian"; "Japan" := "Japanese" ]}.

Definition language (country : string) : string :=
  default "Unknown" (languages !! country).

(** ** What the agent runs against

    [json_loads] is [json.loads] of the Python standard library ([None]
    stands for its [JSONDecodeError]); [api] is the chat-completion endpoint:
    what its n-th attempt does, whatever request it is sent (every behaviour
    of a model is one such sequence). *)
Class World :=
  { json_loads : string -> option JSON;
    api : nat -> ApiOutcome }.

(** ** The methods of [TulipAgent] *)

Section Agent.

Context {world : World}.

Variable self : TulipAgent.

Definition loads (doc : string) : M JSON :=
  match json_loads doc with
  | Some j => ret j
  | None => raise (JSONDecodeError doc)
  end.

(** [__init__] (41-43): the transcript starts with the system prompt, when
    there is one. *)
Definition init : State :=
  {| messages :=
       match instructions self with
       | EmptyString => []
       | _ => [plain_message "system" (instructions self)]
       end;
     attempts := 0;
     events := [] |}.

(** [for x in j]: a list yields its items, a string its characters (one
    string per code point), a dictionary its keys; anything else is not
    iterable. *)
Definition iterate (j : JSON) : M (list JSON) :=
  match j with
  | JArray items => ret items
  | JString s => ret (map JString (characters s))
  | JObject members => ret (map (fun kv => JString (fst kv)) members)
  | _ => raise (TypeError "object is not iterable")
  end.

(** [x[0]] on a list. *)
Definition subscript0 {A} (l : list A) : M A :=
  match l with
  | x :: _ => ret x
  | [] => raise IndexError
  end.

(** [[json.loads(e) for e in docs]] *)
Fixpoint load_all (docs : list string) : M (list JSON) :=
  match docs with
  | [] => ret []
  | e :: rest =>
      let! j := loads e in
      let! js := load_all rest in
      ret (j :: js)
  end.

(** The documents of [res] that no earlier search of the call returned. *)
Definition unseen (hash_res res : list string) : list string :=
  filter (fun e => e ∉ hash_res) res.

(** The body of [search_tools] (66-78), with its two accumulators. *)
Fixpoint search_tools_loop (action_descriptions : list JSON)
    (json_res : list JSON) (hash_res : list string) : M (list JSON) :=
  match action_descriptions with
  | [] => ret json_res
  | action_description :: rest =>
      modify (emit (EvSearch action_description (top_k_functions self))) >>
      let! found := lift (search (tool_library self) action_description (top_k_functions self)) in
      let! res := subscript0 (documents found) in
      let! json_res_ := load_all (unseen hash_res res) in
      search_tools_loop rest (json_res ++ json_res_) (hash_res ++ res)
  end.

Definition search_tools (action_descriptions : JSON) : M (list JSON) :=
  let! items := iterate action_descriptions in
  search_tools_loop items [] [].

(** [self.search_tools( **args )] (154): the keywords must bind exactly the
    one parameter [action_descriptions] (the keys of a dictionary are
    distinct). *)
Definition call_search_tools (args : JSON) : M (list JSON) :=
  match args with
  | JObject [(k, v)] =>
      if String.eqb k "action_descriptions" then search_tools v
      else raise (TypeError "search_tools() got an unexpected keyword argument")
  | JObject [] =>
      raise (TypeError "search_tools() missing 1 required positional argument")
  | JObject _ =>
      raise (TypeError "search_tools() got an unexpected keyword argument")
  | _ => raise (TypeError "argument after ** must be a mapping")
  end.

(** The keyword arguments [__get_response] passes on (92-96); [query] never
    sets [model] or [temperature], so the agent's own are used. *)
Definition request (tools : list JSON) (tool_choice : ToolChoice)
    (msgs : list Message) : Request :=
  {| req_model := model self;
     req_messages := msgs;
     req_tools := tools;
     req_temperature := temperature self;
     req_tool_choice := match tools with [] => Literal "none" | _ => tool_choice end |}.

(** [__get_response] (80-100), called with [msgs=self.messages].  A
    completion object is truthy, so the loop ends with the first attempt that
    does not raise; only [OpenAIError] is caught. *)
Fixpoint get_response (fuel : nat) (tools : list JSON) (tool_choice : ToolChoice)
    (s : State) {struct fuel} : Outcome ChatCompletion :=
  match fuel with
  | 0 => Running s
  | S fuel' =>
      let s1 := attempt (emit (EvCreate (request tools tool_choice (messages s))) s) in
      match api (attempts s) with
      | Completed response => Return response s1
      | Raised e =>
          if is_OpenAIError e
          then get_response fuel' tools tool_choice (emit (EvLogError e) s1)
          else Throw e s1
      end
  end.

(** [response.choices[0].message] *)
Definition first_message (response : ChatCompletion) : M ChatCompletionMessage :=
  subscript0 (choices response).

(** [len(tool_calls)] *)
Definition len (tool_calls : option (list ToolCall)) : M nat :=
  match tool_calls with
  | Some l => ret (length l)
  | None => raise (TypeError "object of type 'NoneType' has no len()")
  end.

(** [assert cond, msg] *)
Definition assert (cond : bool) (msg : string) : M unit :=
  if cond then ret tt else raise (AssertionError msg).

(** The truth value of [tool_calls]: the calls, or nothing when the field is
    [None] or empty. *)
Definition requested (m : ChatCompletionMessage) : list ToolCall :=
  default [] (tool_calls m).

(** *** [query] (102-215), phase by phase *)

(** Decompose (108-125): ask for the steps; the answer is kept, and only its
    [content] is used later on. *)
Definition decompose (fuel : nat) (prompt : string) : M ChatCompletionMessage :=
  modify (append (plain_message "user" (decomposition_request prompt))) >>
  let! actions_response := get_response fuel [search_tools_description] (Literal "none") in
  let! actions_response_message := first_message actions_response in
  modify (append (Assistant actions_response_message)) >>
  ret actions_response_message.

(** The loop over the calls of the search answer (146-164). *)
Fixpoint search_calls (calls : list ToolCall) (tools : list JSON) : M (list JSON) :=
  match calls with
  | [] => ret tools
  | tool_call :: rest =>
      let func := name (function tool_call) in
      let! args := loads (arguments (function tool_call)) in
      assert (String.eqb func "search_tools") ("Unexpected tool call: " +:+ func) >>
      let! tools_ := call_search_tools args in
      modify (append (tool_message (call_id tool_call) func
                        "Successfully provided suitable tools.")) >>
      search_calls rest (tools ++ tools_)
  end.

(** What [query] does with the answer to the search request (139-164). *)
Definition dispatch_search (response_message : ChatCompletionMessage) : M (list JSON) :=
  modify (append (Assistant response_message)) >>
  let! lntc := len (tool_calls response_message) in
  assert (Nat.eqb lntc 1)
    ("Not exactly one tool search executed, but " +:+ str_nat lntc +:+ ".") >>
  search_calls (requested response_message) [].

(** SearchTools (127-164). *)
Definition search_phase (fuel : nat) : M (list JSON) :=
  modify (append (plain_message "user" search_request)) >>
  let! function_response :=
    get_response fuel [search_tools_description] (ForcedFunction "search_tools") in
  let! response_message := first_message function_response in
  dispatch_search response_message.

(** RespondWithTools (166-184). *)
Definition respond_with_tools (fuel : nat) (steps : option string) (tools : list JSON)
    : M ChatCompletionMessage :=
  modify (append (plain_message "user" (solve_request steps))) >>
  let! response := get_response fuel tools (Literal "auto") in
  first_message response.

(** ExecuteTools: the inner loop over the requested calls (189-205). *)
Fixpoint execute_calls (calls : list ToolCall) : M unit :=
  match calls with
  | [] => ret tt
  | tool_call :: rest =>
      let func_name := name (function tool_call) in
      let! func_args := loads (arguments (function tool_call)) in
      modify (emit (EvExecute func_name func_args)) >>
      let! function_response := lift (execute (tool_library self) func_name func_args) in
      modify (append (tool_message (call_id tool_call) func_name
                        (str (tool_library self) function_response))) >>
      execute_calls rest
  end.

(** The [while tool_calls] loop (186-213); it yields the first answer that
    requests no call. *)
Fixpoint tool_loop (fuel : nat) (tools : list JSON)
    (response_message : ChatCompletionMessage) {struct fuel} : M ChatCompletionMessage :=
  match requested response_message with
  | [] => ret response_message
  | calls =>
      match fuel with
      | 0 => fun s => Running s
      | S fuel' =>
          modify (append (Assistant response_message)) >>
          execute_calls calls >>
          let! response := get_response fuel' tools (Literal "auto") in
          let! response_message' := first_message response in
          tool_loop fuel' tools response_message'
      end
  end.

(** The loop and the return of the final answer (186-215). *)
Definition answer (fuel : nat) (tools : list JSON)
    (response_message : ChatCompletionMessage) : M (option string) :=
  let! final := tool_loop fuel tools response_message in
  modify (append (Assistant final)) >>
  ret (content final).

(** The tool-use phase: RespondWithTools, then the loop (166-215). *)
Definition tool_phase (fuel : nat) (steps : option string) (tools : list JSON)
    : M (option string) :=
  let! response_message := respond_with_tools fuel steps tools in
  answer fuel tools response_message.

Definition query (fuel : nat) (prompt : string) : M (option string) :=
  let! actions_response_message := decompose fuel prompt in
  let! tools := search_phase fuel in
  tool_phase fuel (content actions_response_message) tools.

(** *** Vocabulary for the statements *)

(** From attempt [k] on, the endpoint raises the API errors [errs] and then
    completes with [r]. *)
Definition awaits (k : nat) (errs : list PyExc) (r : ChatCompletion) : Prop :=
  (forall i e, errs !! i = Some e -> api (k + i) = Raised e /\ is_OpenAIError e = true)
  /\ api (k + length errs) = Completed r.

(** The events of one call of [get_response] that meets the errors [errs]. *)
Definition retry_events (req : Request) (errs : list PyExc) : list Event :=
  concat (map (fun e => [EvCreate req; EvLogError e]) errs) ++ [EvCreate req].

(** The endpoint answers a whole exchange: one entry per call of
    [get_response], the errors met first and the completion obtained. *)
Fixpoint scripted (k : nat) (turns : list (list PyExc * ChatCompletion)) : Prop :=
  match turns with
  | [] => True
  | (errs, r) :: rest => awaits k errs r /\ scripted (k + length errs + 1) rest
  end.

Definition turn_attempts (turns : list (list PyExc * ChatCompletion)) : nat :=
  list_sum (map (fun t => length (fst t) + 1) turns).

(** The requested calls [calls] go through: the arguments of each parse, and
    the tool returns; [outs] lists the parsed arguments and the values. *)
Definition executed (calls : list ToolCall)
    (outs : list (JSON * Value (tool_library self))) : Prop :=
  Forall2
    (fun c av =>
       json_loads (arguments (function c)) = Some (fst av)
       /\ execute (tool_library self) (name (function c)) (fst av) = inr (snd av))
    calls outs.

Definition executed_events (calls : list ToolCall)
    (outs : list (JSON * Value (tool_library self))) : list Event :=
  zip_with (fun c av => EvExecute (name (function c)) (fst av)) calls outs.

Definition executed_messages (calls : list ToolCall)
    (outs : list (JSON * Value (tool_library self))) : list Message :=
  zip_with
    (fun c av =>
       tool_message (call_id c) (name (function c)) (str (tool_library self) (snd av)))
    calls outs.

(** What one round of the loop adds to the transcript: the answer that
    requested the calls, then one tool message per call. *)
Definition round_messages (m : ChatCompletionMessage)
    (outs : list (JSON * Value (tool_library self))) : list Message :=
  Assistant m :: executed_messages (requested m) outs.

(** The claim of the search phase: exactly one call, named [search_tools]. *)
Definition one_search_call (m : ChatCompletionMessage) : Prop :=
  exists c, tool_calls m = Some [c] /\ name (function c) = "search_tools".

End Agent.

(** *** Deduplication, as a property of the search results alone *)

(** What the [j]-th description of a call contributes: the documents of its
    result that the result of no earlier description holds. *)
Definition contribution (results : list (list string)) (j : nat) : list string :=
  filter (fun e => e ∉ concat (take j results)) (results !!! j).

Definition deduplicated (results : list (list string)) : list string :=
  concat (map (contribution results) (seq 0 (length results))).

(** The accumulator form the loop computes. *)
Fixpoint fresh_from (seen : list string) (results : list (list string)) : list string :=
  match results with
  | [] => []
  | res :: rest => unseen seen res ++ fresh_from (seen ++ res) rest
  end.

(** Whitespace is what the inline request and the template differ in. *)
Definition is_blank (c : ascii) : bool :=
  orb (Ascii.eqb c " "%char) (Ascii.eqb c (ascii_of_nat 10)).

Fixpoint squeeze (s : string) : string :=
  match s with
  | EmptyString => EmptyString
  | String c rest => if is_blank c then squeeze rest else String c (squeeze rest)
  end.

(** ** Vocabulary for the further properties *)

(** [SOLVE_WITH_TOOLS.format(steps=steps)] of prompts.py (108-112). *)
Definition SOLVE_WITH_TOOLS (steps : string) : string :=
  "Now use the tools to fulfill the user request. Adhere exactly to the following steps:"
  +:+ nl +:+ steps +:+ nl
  +:+ "Execute the tool calls one at a time." +:+ nl.

(** The calls into the tool library among some events. *)
Definition is_library_call (ev : Event) : bool :=
  match ev with
  | EvSearch _ _ | EvExecute _ _ => true
  | _ => false
  end.

Definition library_calls (evs : list Event) : list Event :=
  List.filter is_library_call evs.

(** What has been observed between [s] and [s']. *)
Definition new_events (s s' : State) : list Event :=
  drop (length (events s)) (events s').

(** Kinds of events. *)
Definition is_request_with (tools : list JSON) (choice : ToolChoice) (ev : Event) : Prop :=
  exists req, ev = EvCreate req /\ req_tools req = tools /\ req_tool_choice req = choice.

Definition is_error_log (ev : Event) : Prop :=
  exists e, ev = EvLogError e /\ is_OpenAIError e = true.

Definition is_search (top_k : Z) (ev : Event) : Prop :=
  exists problem_description, ev = EvSearch problem_description top_k.

Definition is_execution (ev : Event) : Prop :=
  exists function_name function_args, ev = EvExecute function_name function_args.

(** [s'] comes after [s], and every event observed in between satisfies [P]
    (which may refer to the transcript at [s] and to the one at [s']). *)
Definition adds (P : list Message -> list Message -> Event -> Prop) (s s' : State) : Prop :=
  extends s s'
  /\ exists evs, events s' = events s ++ evs /\ Forall (P (messages s) (messages s')) evs.

(** A computation all of whose events satisfy [P], however it ends. *)
Definition keeps (P : list Message -> list Message -> Event -> Prop) {A} (c : M A) : Prop :=
  forall s, adds P s (final_state (c s)).

(** What holds of a request sent in the course of a query: it carries the
    transcript as it stood then, between the one at the start and the one at
    the end, with the model and the temperature of the agent. *)
Definition sends_transcript (self : TulipAgent) (before after : list Message)
    (ev : Event) : Prop :=
  match ev with
  | EvCreate req =>
      before `prefix_of` req_messages req
      /\ req_messages req `prefix_of` after
      /\ req_model req = model self
      /\ req_temperature req = temperature self
  | _ => True
  end.

(** The choice [__get_response] passes on for the tool-use phase (96). *)
Definition auto_choice (tools : list JSON) : ToolChoice :=
  match tools with [] => Literal "none" | _ => Literal "auto" end.

Section Failures.

Context {world : World}.

Variable self : TulipAgent.

(** The library found the documents [res] for the description [ad]. *)
Definition found_for (ad : JSON) (res : list string) : Prop :=
  exists found,
    search (tool_library self) ad (top_k_functions self) = inr found
    /\ head (documents found) = Some res.

(** The ways one description stops [search_tools], the documents [seen]
    having come with earlier descriptions: the library raises; it returns no
    list of documents; a document not seen before does not decode. *)
Definition search_failure (seen : list string) (ad : JSON) (e : PyExc) : Prop :=
  search (tool_library self) ad (top_k_functions self) = inl e
  \/ (exists found,
        search (tool_library self) ad (top_k_functions self) = inr found
        /\ documents found = [] /\ e = IndexError)
  \/ (exists res good doc rest,
        found_for ad res
        /\ unseen seen res = good ++ doc :: rest
        /\ Forall (fun d => is_Some (json_loads d)) good
        /\ json_loads doc = None
        /\ e = JSONDecodeError doc).

(** The ways one requested call stops a round, and what is observed of it:
    its arguments do not decode (the tool is not run), or the tool raises. *)
Definition call_failure (c : ToolCall) (e : PyExc) (evs : list Event) : Prop :=
  (json_loads (arguments (function c)) = None
   /\ e = JSONDecodeError (arguments (function c)) /\ evs = [])
  \/ (exists args,
        json_loads (arguments (function c)) = Some args
        /\ execute (tool_library self) (name (function c)) args = inl e
        /\ evs = [EvExecute (name (function c)) args]).

End Failures.

(** ** A scripted exchange (examples/tamim.py)

    The demonstration of the repository: the two tools of tamims.py in a
    library, and an endpoint that plays one fixed exchange over and over:
    the list of steps, the tool search, a call of [capital], an API error,
    the final answer.  (The example builds its agent from a class of the
    package that is not among the sources; [agent] is the [TulipAgent] over
    the same library, with the same [top_k_functions].) *)
Module Demo.

Definition dq : string := String (ascii_of_nat 34) EmptyString.
Definition quoted (s : string) : string := dq +:+ s +:+ dq.

(** [{"name": "capital"}] and [{"name": "language"}] *)
Definition capital_doc : string := "{" +:+ quoted "name" +:+ ": " +:+ quoted "capital" +:+ "}".
Definition language_doc : string := "{" +:+ quoted "name" +:+ ": " +:+ quoted "language" +:+ "}".

(** [{"action_descriptions": ["find the capital of a country", "find the language of a country"]}] *)
Definition search_args : string :=
  "{" +:+ quoted "action_descriptions" +:+ ": [" +:+ quoted "find the capital of a country"
  +:+ ", " +:+ quoted "find the language of a country" +:+ "]}".

(** [{"problem_description": "find the capital of a country"}] *)
Definition required_args : string :=
  "{" +:+ quoted "problem_description" +:+ ": " +:+ quoted "find the capital of a country" +:+ "}".

(** [{"country": "France"}] *)
Definition france_args : string :=
  "{" +:+ quoted "country" +:+ ": " +:+ quoted "France" +:+ "}".

(** [json.loads] on the documents of the exchange. *)
Definition loads_table : list (string * JSON) :=
  [ (capital_doc, JObject [("name", JString "capital")]);
    (language_doc, JObject [("name", JString "language")]);
    (search_args,
     JObject [("action_descriptions",
               JArray [JString "find the capital of a country";
                       JString "find the language of a country"])]);
    (required_args,
     JObject [("problem_description", JString "find the capital of a country")]);
    (france_args, JObject [("country", JString "France")]) ].

Definition loads_demo (doc : string) : option JSON := assoc doc loads_table.

(** The library of tamim.py: both tools registered, every search ranking
    the tool asked for first. *)
Definition library : ToolLibrary :=
  {| Value := string;
     str := fun v => v;
     search := fun problem_description top_k =>
       match problem_description with
       | JString "find the language of a country" =>
           inr {| documents := [[language_doc; capital_doc]] |}
       | JString _ => inr {| documents := [[capital_doc; language_doc]] |}
       | _ => inl (TypeError "problem_description must be a string")
       end;
     execute := fun function_name function_args =>
       match get "country" function_args with
       | Some (JString country) =>
           if String.eqb function_name "capital" then inr (capital country)
           else if String.eqb function_name "language" then inr (language country)
           else inl (OtherError "unknown tool")
       | _ => inl (TypeError "missing argument country")
       end |}.

Definition agent : TulipAgent :=
  {| model := "gpt-4-0125-preview";
     temperature := 0;
     instructions := "You are a helpful agent who has access to an abundance of tools.";
     tool_library := library;
     top_k_functions := 3 |}.

Definition steps : ChatCompletionMessage :=
  {| content := Some "1. Look up the capital of France."; tool_calls := None |}.

Definition search_call (args : string) : ChatCompletionMessage :=
  {| content := None;
     tool_calls :=
       Some [ {| call_id := "call_1";
                 function := {| name := "search_tools"; arguments := args |} |} ] |}.

Definition capital_call : ChatCompletionMessage :=
  {| content := None;
     tool_calls :=
       Some [ {| call_id := "call_2";
                 function := {| name := "capital"; arguments := france_args |} |} ] |}.

(** Arguments that broke off, [{"action_descriptions": []; no JSON document. *)
Definition garbled_args : string := "{" +:+ quoted "action_descriptions" +:+ ": [".

(** A call of [capital] with such arguments. *)
Definition garbled_call : ChatCompletionMessage :=
  {| content := None;
     tool_calls :=
       Some [ {| call_id := "call_1";
                 function := {| name := "capital"; arguments := garbled_args |} |} ] |}.

Definition final_answer : ChatCompletionMessage :=
  {| content := Some "The capital of France is Paris."; tool_calls := None |}.

Definition completion (m : ChatCompletionMessage) : ApiOutcome :=
  Completed {| choices := [m] |}.

Definition rate_limit : PyExc := OpenAIError "rate limit reached".

Definition exchange : list ApiOutcome :=
  [ completion steps; completion (search_call search_args);
    completion capital_call; Raised rate_limit; completion final_answer ].

Definition replay (script : list ApiOutcome) (n : nat) : ApiOutcome :=
  default (Raised rate_limit) (script !! (n mod length script)).

#[export] Instance world : World :=
  {| json_loads := loads_demo; api := replay exchange |}.

(** The same exchange, the model filling in what the schema requires. *)
Definition world_required : World :=
  {| json_loads := loads_demo;
     api := replay [ completion steps; completion (search_call required_args);
                     completion capital_call; completion final_answer ] |}.

(** An endpoint that is down for good. *)
Definition world_offline : World :=
  {| json_loads := loads_demo; api := fun _ => Raised rate_limit |}.

Definition question : string := "What is the capital of France?".

(** Two queries in a row on one agent. *)
Definition first_run : Outcome (option string) :=
  query agent 10 question (init agent).

Definition second_run : Outcome (option string) :=
  query agent 10 "And which language is spoken there?" (final_state first_run).

(** The world when the tool search is over, and when [capital_call] has
    come in (the transcript left out). *)
Definition before_tools : State :=
  {| messages := []; attempts := 2; events := [] |}.

Definition before_answer : State :=
  {| messages := []; attempts := 3; events := [] |}.

Definition france : JSON := JObject [("country", JString "France")].

Definition descriptions : list JSON :=
  [JString "find the capital of a country"; JString "find the language of a country"].

End Demo.

(** ** Exchanges that go wrong *)
Module Cases.

Import Demo.

(** An endpoint whose connection breaks after one API error. *)
Definition connection_reset : PyExc := OtherError "connection reset".

Definition world_broken : World :=
  {| json_loads := loads_demo;
     api := replay [ Raised rate_limit; Raised connection_reset ] |}.

(** An answer to the search request with two calls of search_tools. *)
Definition double_search : ChatCompletionMessage :=
  {| content := None;
     tool_calls :=
       Some [ {| call_id := "call_1";
                 function := {| name := "search_tools"; arguments := search_args |} |};
              {| call_id := "call_2";
                 function := {| name := "search_tools"; arguments := search_args |} |} ] |}.

Definition world_double : World :=
  {| json_loads := loads_demo;
     api := replay [ completion steps; completion double_search ] |}.

(** A model that answers the search request in plain words, without a call. *)
Definition world_wordy : World :=
  {| json_loads := loads_demo;
     api := replay [ completion steps; completion final_answer ] |}.

(** Three requested calls, the second with arguments that broke off. *)
Definition first_call : ToolCall :=
  {| call_id := "call_2"; function := {| name := "capital"; arguments := france_args |} |}.

Definition broken_call : ToolCall :=
  {| call_id := "call_3"; function := {| name := "language"; arguments := garbled_args |} |}.

Definition last_call : ToolCall :=
  {| call_id := "call_4"; function := {| name := "language"; arguments := france_args |} |}.

Definition three_calls : ChatCompletionMessage :=
  {| content := None; tool_calls := Some [first_call; broken_call; last_call] |}.

(** The demonstration with these calls in place of the call of capital: the
    model would answer in plain words once it has their results. *)
Definition world_garbled : World :=
  {| json_loads := loads_demo;
     api := replay [ completion steps; completion (search_call search_args);
                     completion three_calls; completion final_answer ] |}.

(** Descriptions of which the second is no text. *)
Definition odd_descriptions : list JSON :=
  [JString "find the capital of a country"; JNumber "7";
   JString "find the language of a country"].

(** The world when the steps have come in. *)
Definition before_search : State :=
  {| messages := []; attempts := 1; events := [] |}.

Definition nothing_yet : State :=
  {| messages := []; attempts := 0; events := [] |}.

Definition found_tools : list JSON :=
  [JObject [("name", JString "capital")]; JObject [("name", JString "language")]].

Definition found_results : list (list string) :=
  [[capital_doc; language_doc]; [language_doc; capital_doc]].

End Cases.

(** * Properties *)

(** ** The example tools *)

Lemma lookup_unlisted (a b c d va vb vc vd country : string) :
  country ∉ [a; b; c; d] ->
  ({[ a := va; b := vb; c := vc; d := vd ]} : gmap string string) !! country = None.
Proof.
  intros Hout.
  rewrite !lookup_insert_ne, lookup_singleton_ne; [done | ..];
    intros ->; apply Hout; set_solver.
Qed.

(** C9: for every country string other than France, Germany, Italy and
    Japan, [capital] and [language] both return the string Unknown (no
    failure); for the four listed countries they return the capital and the
    language of the table. *)
Theorem capital_language_lookup (country : string) :
  (country ∉ ["France"; "Germany"; "Italy"; "Japan"] ->
   capital country = "Unknown" /\ language country = "Unknown")
  /\ (capital "France" = "Paris" /\ language "France" = "French")
  /\ (capital "Germany" = "Berlin" /\ language "Germany" = "German")
  /\ (capital "Italy" = "Rome" /\ language "Italy" = "Italian")
  /\ (capital "Japan" = "Tokyo" /\ language "Japan" = "Japanese").
Proof.
  split.
  - intros Hout. unfold capital, language, capitals, languages.
    by rewrite !lookup_unlisted.
  - repeat split; by vm_compute.
Qed.

(** ** The state-and-exception monad *)

Section Properties.

Context {world : World}.

Variable self : TulipAgent.

Lemma state_eq (s : State) ms k evs :
  messages s = ms -> attempts s = k -> events s = evs ->
  s = {| messages := ms; attempts := k; events := evs |}.
Proof. destruct s; simpl; congruence. Qed.

Lemma bind_modify {B} f (c : M B) s : bind (modify f) (fun _ => c) s = c (f s).
Proof. reflexivity. Qed.

(** ** [__get_response] *)

Lemma awaits_later k e errs r :
  awaits k (e :: errs) r ->
  api k = Raised e /\ is_OpenAIError e = true /\ awaits (S k) errs r.
Proof.
  intros [Herrs Hdone].
  destruct (Herrs 0 e eq_refl) as [H0 He]. rewrite Nat.add_0_r in H0.
  split; [done | split; [done | split]].
  - intros i e' Hi. replace (S k + i) with (k + S i) by lia. by apply Herrs.
  - simpl in Hdone. by replace (S k + length errs) with (k + S (length errs)) by lia.
Qed.

Lemma get_response_awaits fuel tools tool_choice s errs r :
  awaits (attempts s) errs r ->
  length errs < fuel ->
  get_response self fuel tools tool_choice s
  = Return r
      {| messages := messages s;
         attempts := attempts s + length errs + 1;
         events := events s ++ retry_events (request self tools tool_choice (messages s)) errs |}.
Proof.
  revert fuel s. induction errs as [|e errs IH]; intros fuel s Hw Hfuel.
  - destruct Hw as [_ Hdone]. simpl in Hdone. rewrite Nat.add_0_r in Hdone.
    destruct fuel as [|fuel]; [simpl in Hfuel; lia|]. simpl. rewrite Hdone.
    f_equal. unfold attempt, emit. simpl. f_equal. lia.
  - apply awaits_later in Hw as (Hk & He & Hw).
    destruct fuel as [|fuel]; [simpl in Hfuel; lia|]. simpl. rewrite Hk, He.
    rewrite IH; [| done | simpl in *; lia].
    f_equal. simpl. f_equal; [lia|].
    unfold retry_events. simpl. by rewrite <- !app_assoc.
Qed.

Lemma get_response_blocked fuel tools tool_choice s :
  (forall i, i < fuel -> exists e, api (attempts s + i) = Raised e /\ is_OpenAIError e = true) ->
  exists s', get_response self fuel tools tool_choice s = Running s'
             /\ messages s' = messages s /\ attempts s' = attempts s + fuel.
Proof.
  revert s. induction fuel as [|fuel IH]; intros s Hdown.
  - exists s. simpl. repeat split; lia.
  - destruct (Hdown 0) as (e & Hk & He); [lia|]. rewrite Nat.add_0_r in Hk.
    simpl. rewrite Hk, He.
    edestruct IH as (s' & Hrun & Hm & Ha); [| exists s'; split; [exact Hrun|]].
    + intros i Hi. simpl. replace (S (attempts s + i)) with (attempts s + S i) by lia.
      apply Hdown. lia.
    + simpl in *. split; [done | lia].
Qed.

Lemma get_response_no_api_error fuel tools tool_choice s e s' :
  get_response self fuel tools tool_choice s = Throw e s' -> is_OpenAIError e = false.
Proof.
  revert s. induction fuel as [|fuel IH]; intros s; simpl; [done|].
  destruct (api (attempts s)) as [r|e0]; [done|].
  destruct (is_OpenAIError e0) eqn:He0; [apply IH|].
  intros [= <- _]. done.
Qed.

(** C4: when the endpoint raises API errors, [__get_response] logs each one
    and issues the same request again, with nothing in between and however
    many errors come first, until a completion arrives, which it returns;
    while the errors last it keeps blocking; and it never passes an API error
    on to its caller. *)
Theorem get_response_retries_until_answered (tools : list JSON)
    (tool_choice : ToolChoice) (s : State) :
  (forall errs r fuel,
      awaits (attempts s) errs r -> length errs < fuel ->
      get_response self fuel tools tool_choice s
      = Return r
          {| messages := messages s;
             attempts := attempts s + length errs + 1;
             events := events s
                       ++ retry_events (request self tools tool_choice (messages s)) errs |})
  /\ (forall fuel,
         (forall i, i < fuel ->
                    exists e, api (attempts s + i) = Raised e /\ is_OpenAIError e = true) ->
         exists s', get_response self fuel tools tool_choice s = Running s'
                    /\ attempts s' = attempts s + fuel)
  /\ (forall fuel e s',
         get_response self fuel tools tool_choice s = Throw e s' -> is_OpenAIError e = false).
Proof.
  split; [|split].
  - intros errs r fuel. apply get_response_awaits.
  - intros fuel Hdown.
    destruct (get_response_blocked fuel tools tool_choice s Hdown) as (s' & ? & _ & ?).
    by exists s'.
  - intros fuel e s'. apply get_response_no_api_error.
Qed.

(** ** ExecuteTools and the tool-calling loop *)

Lemma load_all_parsed docs js s :
  Forall2 (fun e j => json_loads e = Some j) docs js ->
  load_all docs s = Return js s.
Proof.
  induction 1 as [|e j docs js He _ IH]; [done|].
  simpl. unfold bind, loads. rewrite He. simpl. by rewrite IH.
Qed.

Lemma execute_calls_executed calls outs s :
  executed self calls outs ->
  execute_calls self calls s
  = Return tt
      {| messages := messages s ++ executed_messages self calls outs;
         attempts := attempts s;
         events := events s ++ executed_events self calls outs |}.
Proof.
  intros Hex. revert s.
  induction Hex as [|c av calls outs [Hargs Hval] _ IH]; intros s.
  - simpl. unfold ret. f_equal. apply state_eq; simpl; by rewrite ?app_nil_r.
  - simpl. unfold bind at 1. unfold loads. rewrite Hargs. simpl.
    unfold bind at 1. simpl. unfold bind at 1. rewrite Hval. simpl.
    unfold bind at 1. simpl. rewrite IH. f_equal.
    unfold executed_messages, executed_events. simpl. by rewrite <- !app_assoc.
Qed.

Lemma head_first_message (r : ChatCompletion) m s :
  head (choices r) = Some m -> first_message r s = Return m s.
Proof. unfold first_message. by destruct (choices r) as [|? ?]; intros [= ->]. Qed.

Lemma tool_loop_done fuel tools m s :
  requested m = [] -> tool_loop self fuel tools m s = Return m s.
Proof. intros Hnone. destruct fuel; simpl; by rewrite Hnone. Qed.

Lemma tool_loop_round fuel tools m s outs :
  requested m <> [] ->
  executed self (requested m) outs ->
  tool_loop self (S fuel) tools m s
  = (let! response := get_response self fuel tools (Literal "auto") in
     let! response_message := first_message response in
     tool_loop self fuel tools response_message)
      {| messages := messages s ++ round_messages self m outs;
         attempts := attempts s;
         events := events s ++ executed_events self (requested m) outs |}.
Proof.
  intros Hsome Hex. cbn [tool_loop]. unfold round_messages.
  destruct (requested m) as [|c calls] eqn:Hreq; [done|].
  unfold bind at 1. cbn [modify]. unfold bind at 1.
  rewrite (execute_calls_executed _ _ _ Hex). cbn [append messages attempts events].
  by rewrite <- app_assoc.
Qed.

Lemma app_last_head {A} (l : list A) (x : A) :
  l ++ [x] = hd x l :: tail (l ++ [x]).
Proof. by destruct l. Qed.

Lemma tool_loop_scripted fuel tools final ms outss turns s :
  Forall2 (fun m outs => requested m <> [] /\ executed self (requested m) outs) ms outss ->
  requested final = [] ->
  scripted (attempts s) turns ->
  Forall2 (fun t m => head (choices (snd t)) = Some m) turns (tail (ms ++ [final])) ->
  turn_attempts turns < fuel ->
  exists s',
    tool_loop self fuel tools (hd final ms) s = Return final s'
    /\ messages s' = messages s ++ concat (zip_with (round_messages self) ms outss)
    /\ attempts s' = attempts s + turn_attempts turns.
Proof.
  intros Hrounds Hfinal. revert fuel turns s.
  induction Hrounds as [|m outs ms outss [Hsome Hex] _ IH]; intros fuel turns s Hscript Hturns Hfuel.
  - simpl in *. apply Forall2_nil_inv_r in Hturns as ->.
    exists s. rewrite tool_loop_done by done. simpl.
    split; [done|]. split; [by rewrite app_nil_r | unfold turn_attempts; simpl; lia].
  - simpl in Hturns. rewrite app_last_head in Hturns.
    apply Forall2_cons_inv_r in Hturns as ([errs r] & turns' & Hhead & Hturns & ->).
    simpl in Hhead. destruct Hscript as [Hw Hscript].
    unfold turn_attempts in Hfuel. simpl in Hfuel. fold (turn_attempts turns') in Hfuel.
    destruct fuel as [|fuel]; [lia|].
    simpl hd. rewrite (tool_loop_round _ _ _ _ _ Hsome Hex).
    unfold bind at 1. rewrite (get_response_awaits _ _ _ _ errs r); [| exact Hw | lia]. simpl.
    unfold bind at 1. rewrite (head_first_message _ _ _ Hhead).
    match goal with
    | |- context [tool_loop self fuel tools _ ?st] =>
        destruct (IH fuel turns' st) as (s' & Hrun & Hmsgs & Hatt);
        [exact Hscript | exact Hturns | lia |]
    end.
    exists s'. split; [exact Hrun|]. rewrite Hmsgs, Hatt. simpl.
    split; [by rewrite <- app_assoc | unfold turn_attempts; simpl; lia].
Qed.


Lemma execute_calls_halts calls s s' : execute_calls self calls s <> Running s'.
Proof.
  revert s. induction calls as [|c calls IH]; intros s; [done|].
  simpl. unfold bind at 1, loads.
  destruct (json_loads (arguments (function c))) as [args|]; [|done].
  cbn [ret]. rewrite bind_modify. unfold bind at 1.
  destruct (execute (tool_library self) (name (function c)) args) as [e|v]; [done|].
  cbn [lift ret]. rewrite bind_modify. apply IH.
Qed.

Lemma execute_calls_attempts calls s s' :
  execute_calls self calls s = Return tt s' -> attempts s' = attempts s.
Proof.
  revert s. induction calls as [|c calls IH]; intros s; [by intros [= <-]|].
  simpl. unfold bind at 1, loads.
  destruct (json_loads (arguments (function c))) as [args|]; [|done].
  cbn [ret]. rewrite bind_modify. unfold bind at 1.
  destruct (execute (tool_library self) (name (function c)) args) as [e|v]; [done|].
  cbn [lift ret]. rewrite bind_modify. intros Hrest. by rewrite (IH _ Hrest).
Qed.

Lemma tool_loop_ends fuel tools final ms turns s :
  Forall (fun m => requested m <> []) ms ->
  requested final = [] ->
  scripted (attempts s) turns ->
  Forall2 (fun t m => head (choices (snd t)) = Some m) turns (tail (ms ++ [final])) ->
  turn_attempts turns < fuel ->
  ends_with final (tool_loop self fuel tools (hd final ms) s).
Proof.
  intros Hsome Hfinal. revert fuel turns s.
  induction Hsome as [|m ms Hm _ IH]; intros fuel turns s Hscript Hturns Hfuel.
  - simpl. by rewrite tool_loop_done.
  - simpl in Hturns. rewrite app_last_head in Hturns.
    apply Forall2_cons_inv_r in Hturns as ([errs r] & turns' & Hhead & Hturns & ->).
    simpl in Hhead. destruct Hscript as [Hw Hscript].
    unfold turn_attempts in Hfuel. simpl in Hfuel. fold (turn_attempts turns') in Hfuel.
    destruct fuel as [|fuel]; [lia|].
    simpl hd. cbn [tool_loop]. destruct (requested m) as [|c calls] eqn:Hreq; [done|].
    rewrite bind_modify. unfold bind at 1.
    destruct (execute_calls self (c :: calls) (append (Assistant m) s))
      as [[] s1|e s1|s1] eqn:Hex; [| done | by apply execute_calls_halts in Hex].
    apply execute_calls_attempts in Hex. simpl in Hex.
    unfold bind at 1. rewrite (get_response_awaits _ _ _ _ errs r); [| by rewrite Hex | lia].
    unfold bind at 1. rewrite (head_first_message _ _ _ Hhead).
    apply (IH fuel turns'); [simpl; by rewrite Hex | done | lia].
Qed.

Lemma execute_calls_fails done c rest outs e evs s :
  executed self done outs ->
  call_failure self c e evs ->
  execute_calls self (done ++ c :: rest) s
  = Throw e
      {| messages := messages s ++ executed_messages self done outs;
         attempts := attempts s;
         events := events s ++ executed_events self done outs ++ evs |}.
Proof.
  intros Hdone Hfail. revert s.
  induction Hdone as [|c0 av done outs [Hargs Hval] _ IH]; intros s.
  - simpl. unfold bind at 1, loads.
    destruct Hfail as [(Hnone & -> & ->)|(args & Hsome & Hraise & ->)].
    + rewrite Hnone. unfold raise. f_equal. apply state_eq; simpl; by rewrite ?app_nil_r.
    + rewrite Hsome. cbn [ret]. rewrite bind_modify. unfold bind at 1. rewrite Hraise.
      unfold lift, raise. f_equal. apply state_eq; simpl; by rewrite ?app_nil_r.
  - simpl. unfold bind at 1, loads. rewrite Hargs. cbn [ret]. rewrite bind_modify.
    unfold bind at 1. rewrite Hval. cbn [lift ret]. rewrite bind_modify.
    rewrite IH. f_equal. unfold executed_messages, executed_events. simpl.
    by rewrite <- !app_assoc.
Qed.

Lemma tool_loop_round_fails fuel tools m s done c rest outs e evs :
  requested m = done ++ c :: rest ->
  executed self done outs ->
  call_failure self c e evs ->
  tool_loop self (S fuel) tools m s
  = Throw e
      {| messages := messages s ++ Assistant m :: executed_messages self done outs;
         attempts := attempts s;
         events := events s ++ executed_events self done outs ++ evs |}.
Proof.
  intros Hreq Hdone Hfail. cbn [tool_loop]. rewrite Hreq.
  destruct (done ++ c :: rest) as [|c0 calls] eqn:Hcalls; [by destruct done|].
  rewrite bind_modify. unfold bind at 1. rewrite <- Hcalls.
  rewrite (execute_calls_fails _ _ _ _ _ _ _ Hdone Hfail). simpl.
  by rewrite <- app_assoc.
Qed.

Lemma tool_loop_fails fuel tools before m outss done c rest outs e evs turns s :
  Forall2 (fun m outs => requested m <> [] /\ executed self (requested m) outs) before outss ->
  requested m = done ++ c :: rest ->
  executed self done outs ->
  call_failure self c e evs ->
  scripted (attempts s) turns ->
  Forall2 (fun t m => head (choices (snd t)) = Some m) turns (tail (before ++ [m])) ->
  turn_attempts turns < fuel ->
  exists s',
    tool_loop self fuel tools (hd m before) s = Throw e s'
    /\ messages s'
       = messages s ++ concat (zip_with (round_messages self) before outss)
         ++ Assistant m :: executed_messages self done outs
    /\ attempts s' = attempts s + turn_attempts turns.
Proof.
  intros Hrounds Hreq Hdone Hfail. revert fuel turns s.
  induction Hrounds as [|m0 outs0 before outss [Hsome Hex] _ IH];
    intros fuel turns s Hscript Hturns Hfuel.
  - simpl in *. apply Forall2_nil_inv_r in Hturns as ->.
    destruct fuel as [|fuel]; [unfold turn_attempts in Hfuel; simpl in Hfuel; lia|].
    rewrite (tool_loop_round_fails fuel tools m s done c rest outs e evs Hreq Hdone Hfail).
    eexists. split; [done|]. simpl. split; [done | unfold turn_attempts; simpl; lia].
  - simpl in Hturns. rewrite app_last_head in Hturns.
    apply Forall2_cons_inv_r in Hturns as ([errs r] & turns' & Hhead & Hturns & ->).
    simpl in Hhead. destruct Hscript as [Hw Hscript].
    unfold turn_attempts in Hfuel. simpl in Hfuel. fold (turn_attempts turns') in Hfuel.
    destruct fuel as [|fuel]; [lia|].
    simpl hd. rewrite (tool_loop_round _ _ _ _ _ Hsome Hex).
    unfold bind at 1. rewrite (get_response_awaits _ _ _ _ errs r); [| exact Hw | lia]. simpl.
    unfold bind at 1. rewrite (head_first_message _ _ _ Hhead).
    match goal with
    | |- context [tool_loop self fuel tools _ ?st] =>
        destruct (IH fuel turns' st) as (s' & Hrun & Hmsgs & Hatt);
        [exact Hscript | exact Hturns | lia |]
    end.
    exists s'. split; [exact Hrun|]. rewrite Hmsgs, Hatt. simpl.
    split; [by rewrite <- !app_assoc | unfold turn_attempts; simpl; lia].
Qed.

Lemma scripted_app k turns1 turns2 :
  scripted k (turns1 ++ turns2) -> scripted k turns1.
Proof.
  revert k. induction turns1 as [|[errs r] turns1 IH]; intros k; [done|].
  simpl. intros [Hw Hrest]. split; [done | by apply IH].
Qed.

Lemma turn_attempts_app turns1 turns2 :
  turn_attempts (turns1 ++ turns2) = turn_attempts turns1 + turn_attempts turns2.
Proof. unfold turn_attempts. by rewrite map_app, list_sum_app. Qed.

Lemma hd_app_cons {A} (before later : list A) (m final : A) :
  hd final (before ++ m :: later) = hd m before.
Proof. by destruct before. Qed.

Lemma tail_app_cons {A} (before later : list A) (m final : A) :
  tail ((before ++ m :: later) ++ [final]) = tail (before ++ [m]) ++ later ++ [final].
Proof. destruct before; simpl; [done|]. by rewrite <- !app_assoc. Qed.

(** Requested calls either all go through, or there is a first one that
    fails. *)
Lemma calls_go_through_or_fail calls :
  (exists outs, executed self calls outs)
  \/ (exists done c rest outs e evs,
        calls = done ++ c :: rest
        /\ executed self done outs
        /\ call_failure self c e evs).
Proof.
  induction calls as [|c calls IH]; [left; exists []; constructor|].
  destruct (json_loads (arguments (function c))) as [args|] eqn:Hargs.
  - destruct (execute (tool_library self) (name (function c)) args) as [e|v] eqn:Hval.
    + right. exists [], c, calls, [], e, [EvExecute (name (function c)) args].
      split; [done|]. split; [constructor|]. right. by exists args.
    + destruct IH as [(outs & Hall)|(done & c' & rest & outs & e & evs & -> & Hdone & Hfail)].
      * left. exists ((args, v) :: outs). by constructor.
      * right. exists (c :: done), c', rest, ((args, v) :: outs), e, evs.
        split; [done|]. split; [by constructor | done].
  - right. exists [], c, calls, [], (JSONDecodeError (arguments (function c))), [].
    split; [done|]. split; [constructor|]. by left.
Qed.

Lemma rounds_go_through_or_fail (ms : list ChatCompletionMessage) :
  (exists outss, Forall2 (fun m outs => executed self (requested m) outs) ms outss)
  \/ (exists before m later outss done c rest outs e evs,
        ms = before ++ m :: later
        /\ Forall2 (fun m outs => executed self (requested m) outs) before outss
        /\ requested m = done ++ c :: rest
        /\ executed self done outs
        /\ call_failure self c e evs).
Proof.
  induction ms as [|m ms IH]; [left; exists []; constructor|].
  destruct (calls_go_through_or_fail (requested m))
    as [(outs & Hall)|(done & c & rest & outs & e & evs & Hreq & Hdone & Hfail)].
  - destruct IH as [(outss & Hrounds)
                   |(before & m' & later & outss & done & c & rest & outs' & e & evs
                     & -> & Hrounds & Hreq & Hdone & Hfail)].
    + left. exists (outs :: outss). by constructor.
    + right. exists (m :: before), m', later, (outs :: outss), done, c, rest, outs', e, evs.
      split; [done|]. split; [by constructor | done].
  - right. exists [], m, ms, [], done, c, rest, outs, e, evs.
    split; [done|]. split; [constructor | done].
Qed.

(** C2, as the code has it: take the answers of the model from the one that
    opens the tool-use phase on, the first [ms] of them requesting tool calls
    and the next one, [final], none.  With enough fuel for the attempts of
    the exchange the phase is over, and the only value it can return is the
    content of [final].  It does return it, having run one round per answer
    of [ms] and consumed exactly these answers, when every requested call
    goes through (its arguments decode and its tool returns).  Otherwise the
    loop ends at the first requested call that fails, with the exception of
    that call: the rounds before it are in the transcript, the model is not
    asked again, and the answers after that one, [final] included, are never
    requested.  One of the two is always the case. *)
Theorem tool_loop_terminates (fuel : nat) (steps : option string) (tools : list JSON)
    (final : ChatCompletionMessage) (ms : list ChatCompletionMessage)
    (turns : list (list PyExc * ChatCompletion)) (s : State) :
  Forall (fun m => requested m <> []) ms ->
  requested final = [] ->
  scripted (attempts s) turns ->
  Forall2 (fun t m => head (choices (snd t)) = Some m) turns (ms ++ [final]) ->
  turn_attempts turns < fuel ->
  ends_with (content final) (tool_phase self fuel steps tools s)
  /\ (forall outss,
         Forall2 (fun m outs => executed self (requested m) outs) ms outss ->
         exists s',
           tool_phase self fuel steps tools s = Return (content final) s'
           /\ messages s'
              = messages s
                ++ plain_message "user" (solve_request steps)
                   :: concat (zip_with (round_messages self) ms outss)
                ++ [Assistant final]
           /\ attempts s' = attempts s + turn_attempts turns)
  /\ (forall before m later outss done c rest outs e evs,
         ms = before ++ m :: later ->
         Forall2 (fun m outs => executed self (requested m) outs) before outss ->
         requested m = done ++ c :: rest ->
         executed self done outs ->
         call_failure self c e evs ->
         exists s',
           tool_phase self fuel steps tools s = Throw e s'
           /\ messages s'
              = messages s
                ++ plain_message "user" (solve_request steps)
                   :: concat (zip_with (round_messages self) before outss)
                ++ Assistant m :: executed_messages self done outs
           /\ attempts s' = attempts s + turn_attempts (take (S (length before)) turns))
  /\ ((exists outss, Forall2 (fun m outs => executed self (requested m) outs) ms outss)
      \/ (exists before m later outss done c rest outs e evs,
            ms = before ++ m :: later
            /\ Forall2 (fun m outs => executed self (requested m) outs) before outss
            /\ requested m = done ++ c :: rest
            /\ executed self done outs
            /\ call_failure self c e evs)).
Proof.
  intros Hsome Hfinal Hscript Hturns Hfuel.
  rewrite app_last_head in Hturns.
  apply Forall2_cons_inv_r in Hturns as ([errs r] & turns' & Hhead & Hturns & ->).
  simpl in Hhead. destruct Hscript as [Hw Hscript].
  unfold turn_attempts in Hfuel |- *. simpl in Hfuel |- *.
  fold (turn_attempts turns') in Hfuel |- *.
  assert (Hphase :
            tool_phase self fuel steps tools s
            = answer self fuel tools (hd final ms)
                {| messages := messages s ++ [plain_message "user" (solve_request steps)];
                   attempts := attempts s + length errs + 1;
                   events :=
                     events s
                     ++ retry_events
                          (request self tools (Literal "auto")
                             (messages s ++ [plain_message "user" (solve_request steps)]))
                          errs |}).
  { unfold tool_phase, respond_with_tools. unfold bind at 1. rewrite bind_modify.
    unfold bind at 1. rewrite (get_response_awaits _ _ _ _ errs r); [| exact Hw | simpl; lia].
    by rewrite (head_first_message _ _ _ Hhead). }
  rewrite Hphase. split; [|split; [|split; [|apply rounds_go_through_or_fail]]].
  - unfold answer, bind.
    match goal with
    | |- context [tool_loop self fuel tools _ ?st] =>
        pose proof (tool_loop_ends fuel tools final ms turns' st Hsome Hfinal Hscript Hturns
                      ltac:(lia)) as Hends;
        destruct (tool_loop self fuel tools (hd final ms) st) as [a s1|e s1|s1]
    end; simpl in *; [by subst a | done | done].
  - intros outss Hex.
    match goal with
    | |- context [answer self fuel tools _ ?st] =>
        destruct (tool_loop_scripted fuel tools final ms outss turns' st)
          as (s' & Hrun & Hmsgs & Hatt); [| done | done | done | lia |]
    end.
    { clear -Hsome Hex. induction Hex as [|m outs ms outss Hm _ IH]; [constructor|].
      apply Forall_cons in Hsome as [? ?]. constructor; [done | by apply IH]. }
    exists (append (Assistant final) s'). unfold answer, bind. rewrite Hrun. simpl.
    split; [done|]. split; [| simpl in Hatt; lia].
    rewrite Hmsgs. simpl. by rewrite <- !app_assoc.
  - intros before m later outss done c rest outs e evs -> Hex Hreq Hdone Hfail.
    rewrite tail_app_cons in Hturns.
    apply Forall2_app_inv_r in Hturns as (turns1 & turns2 & Hturns1 & _ & ->).
    apply scripted_app in Hscript.
    rewrite turn_attempts_app in Hfuel.
    assert (Hlen : length turns1 = length before).
    { apply Forall2_length in Hturns1. destruct before; simpl in *; [done|].
      rewrite length_app in Hturns1. simpl in Hturns1. lia. }
    rewrite (hd_app_cons before later m final).
    match goal with
    | |- context [answer self fuel tools _ ?st] =>
        destruct (tool_loop_fails fuel tools before m outss done c rest outs e evs turns1 st)
          as (s' & Hrun & Hmsgs & Hatt); [| done | done | done | done | done | lia |]
    end.
    { apply Forall_app in Hsome as [Hsome _]. clear -Hsome Hex.
      induction Hex as [|m0 outs0 before outss Hm _ IH]; [constructor|].
      apply Forall_cons in Hsome as [? ?]. constructor; [done | by apply IH]. }
    exists s'. unfold answer, bind. rewrite Hrun.
    split; [done|]. split.
    + rewrite Hmsgs. simpl. by rewrite <- !app_assoc.
    + rewrite Hatt. simpl. rewrite <- Hlen, take_app_length.
      unfold turn_attempts. simpl. fold (turn_attempts turns1). lia.
Qed.

(** ** Decompose *)

Lemma squeeze_app (a b : string) : squeeze (a +:+ b) = squeeze a +:+ squeeze b.
Proof.
  induction a as [|c a IH]; [done|].
  simpl. rewrite IH. by destruct (is_blank c).
Qed.

(** The request [query] builds inline is the template [TASK_DECOMPOSITION] of
    prompts.py, whitespace apart (a blank before the quoted request, no line
    break at the end). *)
Lemma decomposition_request_template (prompt : string) :
  squeeze (decomposition_request prompt) = squeeze (TASK_DECOMPOSITION prompt).
Proof.
  unfold decomposition_request, TASK_DECOMPOSITION.
  rewrite !squeeze_app. generalize (squeeze prompt). intros sp.
  by vm_compute.
Qed.

Lemma decompose_awaits fuel prompt s errs r m :
  awaits (attempts s) errs r ->
  head (choices r) = Some m ->
  length errs < fuel ->
  decompose self fuel prompt s
  = Return m
      {| messages :=
           messages s ++ [plain_message "user" (decomposition_request prompt); Assistant m];
         attempts := attempts s + length errs + 1;
         events :=
           events s
           ++ retry_events
                (request self [search_tools_description] (Literal "none")
                   (messages s ++ [plain_message "user" (decomposition_request prompt)]))
                errs |}.
Proof.
  intros Hw Hhead Hfuel. unfold decompose.
  unfold bind at 1. cbn [modify]. unfold bind at 1.
  rewrite (get_response_awaits _ _ _ _ errs r); [| exact Hw | done].
  unfold bind at 1. rewrite (head_first_message _ _ _ Hhead).
  unfold bind, modify, ret, append. simpl. by rewrite <- app_assoc.
Qed.

(** C7: in the Decompose phase [query] sends the transcript ended by a user
    message that wraps the request in the fixed decomposition instruction,
    with the search-tool schema and tool choice none; the answer of the model
    is appended to the transcript; nothing but requests and error logs is
    observed (no tool is searched or executed, whatever calls the answer
    carries), and the rest of [query] reads only the content of the answer. *)
Theorem decompose_sends_template (fuel : nat) (prompt : string) (s : State)
    (errs : list PyExc) (r : ChatCompletion) (m : ChatCompletionMessage) :
  awaits (attempts s) errs r ->
  head (choices r) = Some m ->
  length errs < fuel ->
  let asked :=
    Dict {| tool_call_id := None; role := "user"; tool_name := None;
            text := decomposition_request prompt |} in
  let sent :=
    {| req_model := model self;
       req_messages := messages s ++ [asked];
       req_tools := [search_tools_description];
       req_temperature := temperature self;
       req_tool_choice := Literal "none" |} in
  let s' :=
    {| messages := messages s ++ [asked; Assistant m];
       attempts := attempts s + length errs + 1;
       events := events s ++ retry_events sent errs |} in
  decompose self fuel prompt s = Return m s'
  /\ query self fuel prompt s
     = (let! tools := search_phase self fuel in
        tool_phase self fuel (content m) tools) s'
  /\ decomposition_request prompt
     = "Considering the following user request, what are the necessary atomic actions you need to execute?"
       +:+ nl +:+ " `" +:+ prompt +:+ "`" +:+ nl +:+ "Return a numbered list of steps.".
Proof.
  intros Hw Hhead Hfuel asked sent s'.
  pose proof (decompose_awaits fuel prompt s errs r m Hw Hhead Hfuel) as Hdec.
  split; [exact Hdec|]. split.
  - unfold query. unfold bind at 1. by rewrite Hdec.
  - reflexivity.
Qed.

(** ** The transcript only grows *)

Lemma extends_refl s : extends s s.
Proof. by split. Qed.

Lemma extends_trans s1 s2 s3 : extends s1 s2 -> extends s2 s3 -> extends s1 s3.
Proof. intros [? ?] [? ?]. split; by etrans. Qed.

Lemma extends_append m s : extends s (append m s).
Proof. split; simpl; [by apply prefix_app_r | done]. Qed.

Lemma extends_emit e s : extends s (emit e s).
Proof. split; simpl; [done | by apply prefix_app_r]. Qed.

Lemma extends_attempt s : extends s (attempt s).
Proof. by split. Qed.

Lemma steady_ret {A} (a : A) : steady (ret a).
Proof. intros s. apply extends_refl. Qed.

Lemma steady_raise {A} e : steady (@raise A e).
Proof. intros s. apply extends_refl. Qed.

Lemma steady_modify f : (forall s, extends s (f s)) -> steady (modify f).
Proof. intros Hf s. apply Hf. Qed.

Lemma steady_lift {A} (r : PyExc + A) : steady (lift r).
Proof. destruct r; [apply steady_raise | apply steady_ret]. Qed.

Lemma extends_bind {A B} (c : M A) (k : A -> M B) s :
  (forall a, steady (k a)) -> extends (final_state (c s)) (final_state (bind c k s)).
Proof.
  intros Hk. unfold bind. destruct (c s) as [a s1|e s1|s1]; simpl;
    [apply Hk | apply extends_refl | apply extends_refl].
Qed.

Lemma steady_bind {A B} (c : M A) (k : A -> M B) :
  steady c -> (forall a, steady (k a)) -> steady (bind c k).
Proof.
  intros Hc Hk s. eapply extends_trans; [apply Hc | by apply extends_bind].
Qed.

Create HintDb steady.
#[local] Hint Resolve steady_ret steady_raise steady_modify steady_lift steady_bind
  extends_append extends_emit : steady.

Lemma steady_loads doc : steady (loads doc).
Proof. unfold loads. destruct (json_loads doc); auto with steady. Qed.

Lemma steady_subscript0 {A} (l : list A) : steady (subscript0 l).
Proof. destruct l; simpl; auto with steady. Qed.

Lemma steady_assert cond msg : steady (assert cond msg).
Proof. destruct cond; simpl; auto with steady. Qed.

Lemma steady_len tcs : steady (len tcs).
Proof. destruct tcs; simpl; auto with steady. Qed.

Lemma steady_iterate j : steady (iterate j).
Proof. destruct j; simpl; auto with steady. Qed.

Lemma steady_first_message response : steady (first_message response).
Proof. apply steady_subscript0. Qed.

#[local] Hint Resolve steady_loads steady_subscript0 steady_assert steady_len
  steady_iterate steady_first_message : steady.

Lemma extends_attempt_emit e s : extends s (attempt (emit e s)).
Proof. eapply extends_trans; [apply extends_emit | apply extends_attempt]. Qed.

Lemma steady_get_response fuel tools tool_choice :
  steady (get_response self fuel tools tool_choice).
Proof.
  induction fuel as [|fuel IH]; intros s; simpl; [apply extends_refl|].
  destruct (api (attempts s)) as [r|e]; [apply extends_attempt_emit|].
  destruct (is_OpenAIError e); [| apply extends_attempt_emit].
  eapply extends_trans; [| apply IH].
  eapply extends_trans; [apply extends_attempt_emit | apply extends_emit].
Qed.

Lemma get_response_first_request fuel tools tool_choice s :
  extends (attempt (emit (EvCreate (request self tools tool_choice (messages s))) s))
    (final_state (get_response self (S fuel) tools tool_choice s)).
Proof.
  simpl. destruct (api (attempts s)) as [r|e]; [apply extends_refl|].
  destruct (is_OpenAIError e); [| apply extends_refl].
  eapply extends_trans; [apply extends_emit | apply steady_get_response].
Qed.

#[local] Hint Resolve steady_get_response : steady.

Lemma steady_load_all docs : steady (load_all docs).
Proof. induction docs; simpl; auto with steady. Qed.

#[local] Hint Resolve steady_load_all : steady.

Lemma steady_search_tools_loop ads json_res hash_res :
  steady (search_tools_loop self ads json_res hash_res).
Proof.
  revert json_res hash_res. induction ads; intros; simpl; auto 10 with steady.
Qed.

#[local] Hint Resolve steady_search_tools_loop : steady.

Lemma steady_call_search_tools args : steady (call_search_tools self args).
Proof.
  unfold call_search_tools, search_tools.
  destruct args as [| | | | |[|[k v] [|]]]; auto with steady.
  destruct (String.eqb k "action_descriptions"); auto with steady.
Qed.

#[local] Hint Resolve steady_call_search_tools : steady.

Lemma steady_search_calls calls tools : steady (search_calls self calls tools).
Proof. revert tools. induction calls; intros; simpl; auto 10 with steady. Qed.

Lemma steady_execute_calls calls : steady (execute_calls self calls).
Proof. induction calls; simpl; auto 10 with steady. Qed.

#[local] Hint Resolve steady_search_calls steady_execute_calls : steady.

Lemma steady_tool_loop fuel tools m : steady (tool_loop self fuel tools m).
Proof.
  revert m. induction fuel as [|fuel IH]; intros m; simpl;
    destruct (requested m) as [|c calls].
  - auto with steady.
  - intros s. apply extends_refl.
  - auto with steady.
  - auto 10 with steady.
Qed.

#[local] Hint Resolve steady_tool_loop : steady.

Lemma steady_search_phase fuel : steady (search_phase self fuel).
Proof.
  unfold search_phase, dispatch_search. auto 10 with steady.
Qed.

Lemma steady_respond_with_tools fuel steps tools :
  steady (respond_with_tools self fuel steps tools).
Proof. unfold respond_with_tools. auto 10 with steady. Qed.

Lemma steady_answer fuel tools m : steady (answer self fuel tools m).
Proof. unfold answer. auto 10 with steady. Qed.

#[local] Hint Resolve steady_search_phase steady_respond_with_tools steady_answer : steady.

Lemma steady_tool_phase fuel steps tools : steady (tool_phase self fuel steps tools).
Proof. unfold tool_phase. auto 10 with steady. Qed.

#[local] Hint Resolve steady_tool_phase : steady.

Lemma steady_after_decompose fuel (m : ChatCompletionMessage) :
  steady (let! tools := search_phase self fuel in
          tool_phase self fuel (content m) tools).
Proof. auto 10 with steady. Qed.

Lemma steady_query fuel prompt : steady (query self fuel prompt).
Proof.
  unfold query, decompose.
  pose proof (steady_after_decompose fuel). auto 10 with steady.
Qed.

Lemma decompose_first_request fuel prompt s :
  extends
    (attempt
       (emit
          (EvCreate
             (request self [search_tools_description] (Literal "none")
                (messages s ++ [plain_message "user" (decomposition_request prompt)])))
          (append (plain_message "user" (decomposition_request prompt)) s)))
    (final_state (decompose self (S fuel) prompt s)).
Proof.
  unfold decompose. rewrite bind_modify.
  eapply extends_trans; [apply get_response_first_request|].
  apply extends_bind. auto 10 with steady.
Qed.

(** C6, as the code has it: [query] never removes or changes an entry of the
    transcript, whether it returns, aborts or is still waiting: the
    transcript it leaves starts with the one it found.  The transcript
    belongs to the agent, not to one query: the first request of a query
    sends everything found in it ([__init__] and earlier queries included),
    followed by the new user message. *)
Theorem query_appends_to_agent_transcript (fuel : nat) (prompt : string) (s : State) :
  messages s `prefix_of` messages (final_state (query self fuel prompt s))
  /\ (events s
      ++ [EvCreate
            {| req_model := model self;
               req_messages :=
                 messages s ++ [plain_message "user" (decomposition_request prompt)];
               req_tools := [search_tools_description];
               req_temperature := temperature self;
               req_tool_choice := Literal "none" |}])
     `prefix_of` events (final_state (query self (S fuel) prompt s)).
Proof.
  split; [apply steady_query|].
  unfold query.
  pose proof (decompose_first_request fuel prompt s) as [_ Hfirst].
  pose proof (extends_bind (decompose self (S fuel) prompt)
                (fun m : ChatCompletionMessage =>
                   let! tools := search_phase self (S fuel) in
                   tool_phase self (S fuel) (content m) tools)
                s (steady_after_decompose (S fuel))) as [_ Hrest].
  etrans; [exact Hfirst | exact Hrest].
Qed.

(** ** SearchTools *)

Lemma dispatch_search_uncounted m s :
  tool_calls m = None ->
  dispatch_search self m s
  = Throw (TypeError "object of type 'NoneType' has no len()") (append (Assistant m) s).
Proof. intros Hnone. unfold dispatch_search. rewrite bind_modify, Hnone. done. Qed.

Lemma dispatch_search_miscounted m l s :
  tool_calls m = Some l ->
  length l <> 1 ->
  dispatch_search self m s
  = Throw
      (AssertionError
         ("Not exactly one tool search executed, but " +:+ str_nat (length l) +:+ "."))
      (append (Assistant m) s).
Proof.
  intros Hcalls Hlen. unfold dispatch_search. rewrite bind_modify, Hcalls.
  unfold bind, len, ret, assert. apply Nat.eqb_neq in Hlen. by rewrite Hlen.
Qed.

Lemma dispatch_search_single m c s :
  tool_calls m = Some [c] ->
  dispatch_search self m s
  = match json_loads (arguments (function c)) with
    | None => Throw (JSONDecodeError (arguments (function c))) (append (Assistant m) s)
    | Some args =>
        if String.eqb (name (function c)) "search_tools"
        then (let! tools := call_search_tools self args in
              modify (append (tool_message (call_id c) (name (function c))
                                "Successfully provided suitable tools.")) >>
              ret tools) (append (Assistant m) s)
        else Throw (AssertionError ("Unexpected tool call: " +:+ name (function c)))
               (append (Assistant m) s)
    end.
Proof.
  intros Hcalls. unfold dispatch_search, requested. rewrite bind_modify, Hcalls.
  simpl. unfold bind, len, assert, ret, raise, modify, loads. simpl.
  destruct (json_loads (arguments (function c))) as [args|]; [|done].
  destruct (String.eqb (name (function c)) "search_tools"); [|done].
  unfold ret. by destruct (call_search_tools self args (append (Assistant m) s)).
Qed.

Lemma call_search_tools_keys args s :
  keys args <> ["action_descriptions"] ->
  exists msg, call_search_tools self args s = Throw (TypeError msg) s.
Proof.
  intros Hkeys. unfold call_search_tools.
  destruct args as [| | | | |[|[k v] [|]]]; try by eexists.
  destruct (String.eqb k "action_descriptions") eqn:Hk; [|by eexists].
  apply String.eqb_eq in Hk as ->. done.
Qed.

(** C1, as the code has it: [query] aborts in the SearchTools phase unless
    the answer carries exactly one tool call and that call is named
    search_tools.  It does so with an AssertionError when the answer carries
    a list of calls of another length, and when the one call has another name
    (its arguments being valid JSON); with the TypeError of [len], and no
    assertion failure, when the answer carries no list of calls at all
    ([tool_calls] is [None]); and with a JSONDecodeError when the arguments
    of the one call are not valid JSON, whatever its name.  With exactly one
    search_tools call whose arguments are valid JSON both assertions pass,
    and the phase ends as the tool search on those arguments does; it
    completes when they are an object with the single key
    action_descriptions whose search completes. *)
Theorem search_phase_assertions (m : ChatCompletionMessage) (s : State) :
  (~ one_search_call m -> exists e, dispatch_search self m s = Throw e (append (Assistant m) s))
  /\ (forall l,
         tool_calls m = Some l -> length l <> 1 ->
         dispatch_search self m s
         = Throw
             (AssertionError
                ("Not exactly one tool search executed, but " +:+ str_nat (length l) +:+ "."))
             (append (Assistant m) s))
  /\ (tool_calls m = None ->
      dispatch_search self m s
      = Throw (TypeError "object of type 'NoneType' has no len()") (append (Assistant m) s))
  /\ (forall c,
         tool_calls m = Some [c] ->
         json_loads (arguments (function c)) = None ->
         dispatch_search self m s
         = Throw (JSONDecodeError (arguments (function c))) (append (Assistant m) s))
  /\ (forall c args,
         tool_calls m = Some [c] ->
         json_loads (arguments (function c)) = Some args ->
         name (function c) <> "search_tools" ->
         dispatch_search self m s
         = Throw (AssertionError ("Unexpected tool call: " +:+ name (function c)))
             (append (Assistant m) s))
  /\ (forall c args,
         tool_calls m = Some [c] ->
         name (function c) = "search_tools" ->
         json_loads (arguments (function c)) = Some args ->
         dispatch_search self m s
         = (let! tools := call_search_tools self args in
            modify (append (tool_message (call_id c) "search_tools"
                              "Successfully provided suitable tools.")) >>
            ret tools) (append (Assistant m) s))
  /\ (forall c v tools s',
         tool_calls m = Some [c] ->
         name (function c) = "search_tools" ->
         json_loads (arguments (function c)) = Some (JObject [("action_descriptions", v)]) ->
         search_tools self v (append (Assistant m) s) = Return tools s' ->
         dispatch_search self m s
         = Return tools
             (append (tool_message (call_id c) "search_tools"
                        "Successfully provided suitable tools.") s')).
Proof.
  repeat apply conj.
  - intros Hnot. destruct (tool_calls m) as [[|c [|c' l]]|] eqn:Hcalls.
    + eexists. by apply (dispatch_search_miscounted m []).
    + rewrite (dispatch_search_single m c s Hcalls).
      destruct (json_loads (arguments (function c))) as [args|]; [|by eexists].
      destruct (String.eqb (name (function c)) "search_tools") eqn:Hname; [|by eexists].
      apply String.eqb_eq in Hname. destruct Hnot. by exists c.
    + eexists. by apply (dispatch_search_miscounted m (c :: c' :: l)).
    + eexists. by apply dispatch_search_uncounted.
  - intros l. apply dispatch_search_miscounted.
  - apply dispatch_search_uncounted.
  - intros c Hcalls Hargs.
    by rewrite (dispatch_search_single m c s Hcalls), Hargs.
  - intros c args Hcalls Hargs Hname.
    rewrite (dispatch_search_single m c s Hcalls), Hargs.
    apply String.eqb_neq in Hname. by rewrite Hname.
  - intros c args Hcalls Hname Hargs.
    rewrite (dispatch_search_single m c s Hcalls), Hargs, Hname. done.
  - intros c v tools s' Hcalls Hname Hargs Hsearch.
    rewrite (dispatch_search_single m c s Hcalls), Hargs, Hname.
    cbn [String.eqb Ascii.eqb Bool.eqb andb]. unfold bind at 1.
    cbn [call_search_tools String.eqb Ascii.eqb Bool.eqb andb].
    by rewrite Hsearch.
Qed.

(** C10: the published schema of search_tools requires the parameter
    problem_description, which is none of its declared properties (the only
    one is action_descriptions), while [search_tools] binds
    action_descriptions and nothing else; so a search_tools call whose
    argument object holds exactly what the schema requires fails when its
    arguments are unpacked, and [query] aborts with a TypeError. *)
Theorem search_tools_schema_inconsistent (s : State) :
  schema_required = ["problem_description"]
  /\ schema_properties = ["action_descriptions"]
  /\ (forall p, p ∈ schema_required -> p ∉ schema_properties)
  /\ (forall v, call_search_tools self (JObject [("action_descriptions", v)]) s = search_tools self v s)
  /\ (forall args,
         keys args <> ["action_descriptions"] ->
         exists msg, call_search_tools self args s = Throw (TypeError msg) s)
  /\ (forall args,
         keys args = schema_required ->
         exists msg, call_search_tools self args s = Throw (TypeError msg) s)
  /\ (forall m c args,
         tool_calls m = Some [c] ->
         name (function c) = "search_tools" ->
         json_loads (arguments (function c)) = Some args ->
         keys args = schema_required ->
         exists msg,
           dispatch_search self m s = Throw (TypeError msg) (append (Assistant m) s)).
Proof.
  assert (Hreq : schema_required = ["problem_description"]) by reflexivity.
  assert (Hne : forall args, keys args = schema_required ->
                             keys args <> ["action_descriptions"]).
  { intros args ->. by rewrite Hreq. }
  repeat apply conj.
  - done.
  - done.
  - intros p. rewrite Hreq. change schema_properties with ["action_descriptions"].
    rewrite !list_elem_of_singleton. by intros ->.
  - done.
  - intros args. apply call_search_tools_keys.
  - intros args Hkeys. by apply call_search_tools_keys, Hne.
  - intros m c args Hcalls Hname Hargs Hkeys.
    rewrite (dispatch_search_single m c s Hcalls), Hargs, Hname.
    cbn [String.eqb Ascii.eqb Bool.eqb andb]. unfold bind at 1.
    destruct (call_search_tools_keys args (append (Assistant m) s) (Hne _ Hkeys))
      as (msg & ->).
    by exists msg.
Qed.

(** ** [search_tools] *)

Lemma elem_of_concat (e : string) (ls : list (list string)) :
  e ∈ concat ls <-> exists l, l ∈ ls /\ e ∈ l.
Proof.
  rewrite list_elem_of_In, in_concat.
  split; intros (l & H1 & H2); exists l; by rewrite ?list_elem_of_In in *.
Qed.

Lemma elem_of_fresh_from e seen results :
  e ∈ fresh_from seen results <-> (e ∉ seen) /\ e ∈ concat results.
Proof.
  revert seen. induction results as [|res rest IH]; intros seen; simpl.
  - split; [by intros ?%elem_of_nil | by intros [_ ?%elem_of_nil]].
  - unfold unseen. rewrite !elem_of_app, list_elem_of_filter, IH, elem_of_app.
    destruct (decide (e ∈ res)); tauto.
Qed.

Lemma NoDup_fresh_from seen results :
  Forall NoDup results -> NoDup (fresh_from seen results).
Proof.
  intros Hnd. revert seen. induction Hnd as [|res rest Hres _ IH]; intros seen; simpl.
  - constructor.
  - apply NoDup_app. split; [by apply NoDup_filter|]. split; [|apply IH].
    intros e [_ Hin]%list_elem_of_filter [Hout _]%elem_of_fresh_from.
    apply Hout, elem_of_app. by right.
Qed.

Lemma fresh_from_contribution (pre rest : list (list string)) :
  fresh_from (concat pre) rest
  = concat (map (contribution (pre ++ rest)) (seq (length pre) (length rest))).
Proof.
  revert pre. induction rest as [|res rest IH]; intros pre; [done|].
  simpl. f_equal.
  - unfold contribution, unseen.
    by rewrite take_app_length, list_lookup_total_middle.
  - specialize (IH (pre ++ [res])).
    rewrite concat_app, length_app, <- app_assoc in IH. simpl in IH.
    rewrite app_nil_r, Nat.add_1_r in IH. exact IH.
Qed.

Lemma fresh_from_deduplicated results : fresh_from [] results = deduplicated results.
Proof. apply (fresh_from_contribution [] results). Qed.

Lemma search_tools_loop_results ads results json_res hash_res out s :
  Forall2
    (fun ad res =>
       exists found,
         search (tool_library self) ad (top_k_functions self) = inr found
         /\ head (documents found) = Some res)
    ads results ->
  Forall2 (fun e j => json_loads e = Some j) (fresh_from hash_res results) out ->
  search_tools_loop self ads json_res hash_res s
  = Return (json_res ++ out)
      {| messages := messages s;
         attempts := attempts s;
         events := events s ++ map (fun ad => EvSearch ad (top_k_functions self)) ads |}.
Proof.
  intros Hfound. revert json_res hash_res out s.
  induction Hfound as [|ad res ads results (found & Hsearch & Hhead) _ IH];
    intros json_res hash_res out s Hparse.
  - simpl in *. apply Forall2_nil_inv_l in Hparse as ->.
    unfold ret. rewrite !app_nil_r. by destruct s.
  - simpl in Hparse.
    apply Forall2_app_inv_l in Hparse as (out1 & out2 & Hout1 & Hout2 & ->).
    simpl. rewrite bind_modify. unfold bind at 1. rewrite Hsearch. cbn [lift ret].
    unfold bind at 1.
    destruct (documents found) as [|res' others]; [done|]. injection Hhead as ->.
    cbn [subscript0 ret]. unfold bind at 1. rewrite (load_all_parsed _ _ _ Hout1).
    rewrite (IH _ _ out2); [|done]. simpl. by rewrite <- !app_assoc.
Qed.

(** C3: when the library answers the descriptions of one [search_tools] call
    with the results [results] (documents that parse), the call returns the
    parsed documents of [deduplicated results]: each description contributes
    the documents of its result that the result of no earlier description of
    the call holds.  So no document returned for an earlier description comes
    again with a later one; every document the library returned is kept, at
    its first occurrence; and when no single result repeats a document, the
    documents kept are pairwise distinct. *)
Theorem search_tools_deduplicates (ads : list JSON) (results : list (list string))
    (out : list JSON) (s : State) :
  Forall2
    (fun ad res =>
       exists found,
         search (tool_library self) ad (top_k_functions self) = inr found
         /\ head (documents found) = Some res)
    ads results ->
  Forall2 (fun e j => json_loads e = Some j) (deduplicated results) out ->
  search_tools self (JArray ads) s
  = Return out
      {| messages := messages s;
         attempts := attempts s;
         events := events s ++ map (fun ad => EvSearch ad (top_k_functions self)) ads |}
  /\ (forall i j res e,
         i < j -> results !! i = Some res -> e ∈ res -> e ∉ contribution results j)
  /\ (forall e, e ∈ deduplicated results <-> e ∈ concat results)
  /\ (Forall NoDup results -> NoDup (deduplicated results)).
Proof.
  intros Hfound Hparse. repeat apply conj.
  - unfold search_tools. unfold bind. cbn [iterate ret].
    rewrite <- fresh_from_deduplicated in Hparse.
    by rewrite (search_tools_loop_results ads results [] [] out s Hfound Hparse).
  - intros i j res e Hij Hres Hin [Hout _]%list_elem_of_filter.
    apply Hout, elem_of_concat. exists res. split; [|done].
    apply list_elem_of_lookup. exists i. rewrite lookup_take_lt; done.
  - intros e. rewrite <- fresh_from_deduplicated, elem_of_fresh_from.
    split; [by intros [_ ?] | intros ?; split; [apply not_elem_of_nil | done]].
  - intros Hnd. rewrite <- fresh_from_deduplicated. by apply NoDup_fresh_from.
Qed.

End Properties.

(** * Further properties of the code *)

(** ** The characters of a string *)

Lemma continuation_byte (n : N) :
  (128 <= n < 192)%N -> is_continuation (ascii_of_N n) = true.
Proof.
  intros Hn. unfold is_continuation. rewrite N_ascii_embedding by lia.
  apply andb_true_intro. split; [apply N.leb_le | apply N.ltb_lt]; lia.
Qed.

Lemma leading_byte (n : N) :
  (n < 128 \/ 192 <= n < 256)%N -> is_continuation (ascii_of_N n) = false.
Proof.
  intros Hn. unfold is_continuation. rewrite N_ascii_embedding by lia.
  apply andb_false_iff. destruct Hn; [left; apply N.leb_gt | right; apply N.ltb_ge]; lia.
Qed.

Lemma low_bits (n : N) : (128 <= 128 + n mod 64 < 192)%N.
Proof.
  assert (Hlow : (n mod 64 < 64)%N) by (by apply N.mod_upper_bound).
  revert Hlow. generalize (n mod 64)%N. lia.
Qed.

(** Behind the encoding of a code point the next character begins. *)
Lemma characters_utf8_onto (cp : N) (rest : string) :
  continuation rest = EmptyString ->
  characters (utf8_onto cp rest) = chr cp :: characters rest
  /\ continuation (utf8_onto cp rest) = EmptyString.
Proof.
  intros Hrest. unfold chr, utf8_onto.
  destruct (N.ltb_spec cp 128) as [H1|H1];
    [|destruct (N.ltb_spec cp 2048) as [H2|H2];
      [|destruct (N.ltb_spec cp 65536) as [H3|H3]]];
    cbn [characters continuation];
    rewrite ?(continuation_byte _ (low_bits _)), ?Hrest.
  - rewrite leading_byte by lia. done.
  - rewrite leading_byte; [done|].
    assert (Hhigh : (cp / 64 < 32)%N) by (apply N.Div0.div_lt_upper_bound; lia).
    revert Hhigh. generalize (cp / 64)%N. lia.
  - rewrite leading_byte; [done|].
    assert (Hhigh : (cp / 4096 < 16)%N) by (apply N.Div0.div_lt_upper_bound; lia).
    revert Hhigh. generalize (cp / 4096)%N. lia.
  - rewrite leading_byte; [done|].
    assert (Hhigh : (cp / 262144 mod 8 < 8)%N) by (by apply N.mod_upper_bound).
    revert Hhigh. generalize (cp / 262144 mod 8)%N. lia.
Qed.

(** Iterating over a string yields its code points, one string each. *)
Lemma characters_text_of (cps : list N) :
  characters (text_of cps) = map chr cps.
Proof.
  assert (H : characters (text_of cps) = map chr cps
              /\ continuation (text_of cps) = EmptyString); [|by destruct H].
  induction cps as [|cp cps [IH Hc]]; [done|].
  simpl. destruct (characters_utf8_onto cp (text_of cps) Hc) as [-> ->]. by rewrite IH.
Qed.

Section Further.

Context {world : World}.

Variable self : TulipAgent.

(** ** [__get_response], whatever the endpoint does *)

Lemma get_response_raises fuel tools tool_choice s errs e :
  (forall i e', errs !! i = Some e' ->
                api (attempts s + i) = Raised e' /\ is_OpenAIError e' = true) ->
  api (attempts s + length errs) = Raised e ->
  is_OpenAIError e = false ->
  length errs < fuel ->
  get_response self fuel tools tool_choice s
  = Throw e
      {| messages := messages s;
         attempts := attempts s + length errs + 1;
         events := events s ++ retry_events (request self tools tool_choice (messages s)) errs |}.
Proof.
  revert fuel s. induction errs as [|e0 errs IH]; intros fuel s Herrs Hlast He Hfuel.
  - simpl in Hlast. rewrite Nat.add_0_r in Hlast.
    destruct fuel as [|fuel]; [simpl in Hfuel; lia|]. simpl. rewrite Hlast, He.
    f_equal. unfold attempt, emit. simpl. f_equal. lia.
  - destruct (Herrs 0 e0 eq_refl) as [H0 He0]. rewrite Nat.add_0_r in H0.
    destruct fuel as [|fuel]; [simpl in Hfuel; lia|]. simpl. rewrite H0, He0.
    rewrite IH; [| | | done | simpl in *; lia].
    + f_equal. simpl. f_equal; [lia|].
      unfold retry_events. simpl. by rewrite <- !app_assoc.
    + intros i e' Hi. simpl. replace (S (attempts s + i)) with (attempts s + S i) by lia.
      by apply Herrs.
    + simpl in *. by replace (S (attempts s + length errs))
        with (attempts s + S (length errs)) by lia.
Qed.

(** X3: an exception of the endpoint that is no [OpenAIError] is not
    retried: after the API errors met before it (each logged and retried),
    [__get_response] lets it through at once, unlogged, the request having
    been sent one last time. *)
Theorem get_response_lets_other_errors_through (fuel : nat) (tools : list JSON)
    (tool_choice : ToolChoice) (s : State) (errs : list PyExc) (e : PyExc) :
  (forall i e', errs !! i = Some e' ->
                api (attempts s + i) = Raised e' /\ is_OpenAIError e' = true) ->
  api (attempts s + length errs) = Raised e ->
  is_OpenAIError e = false ->
  length errs < fuel ->
  get_response self fuel tools tool_choice s
  = Throw e
      {| messages := messages s;
         attempts := attempts s + length errs + 1;
         events :=
           events s
           ++ concat (map (fun e' => [EvCreate (request self tools tool_choice (messages s));
                                      EvLogError e']) errs)
           ++ [EvCreate (request self tools tool_choice (messages s))] |}.
Proof. apply get_response_raises. Qed.

(** X4: whatever the endpoint does and however long it is waited for, one
    call of [__get_response] is told by the endpoint alone.  It makes its
    attempts one after the other, leaves the transcript as it is and sends
    one and the same request at every attempt; the attempts that failed are
    those the endpoint answered with an API error, and these errors are what
    is logged, one after each failed attempt.  It returns when the next
    attempt completes, with that completion; it raises when the next attempt
    raises something else, that very exception; and it is still running only
    when every attempt made was answered by an API error. *)
Theorem get_response_trace (fuel : nat) (tools : list JSON) (tool_choice : ToolChoice)
    (s : State) :
  exists errs,
    (forall i e, errs !! i = Some e ->
                 api (attempts s + i) = Raised e /\ is_OpenAIError e = true)
    /\ messages (final_state (get_response self fuel tools tool_choice s)) = messages s
    /\ match get_response self fuel tools tool_choice s with
       | Return r s' =>
           api (attempts s + length errs) = Completed r
           /\ length errs < fuel
           /\ attempts s' = attempts s + length errs + 1
           /\ events s'
              = events s ++ retry_events (request self tools tool_choice (messages s)) errs
       | Throw e s' =>
           api (attempts s + length errs) = Raised e
           /\ is_OpenAIError e = false
           /\ length errs < fuel
           /\ attempts s' = attempts s + length errs + 1
           /\ events s'
              = events s ++ retry_events (request self tools tool_choice (messages s)) errs
       | Running s' =>
           length errs = fuel
           /\ attempts s' = attempts s + fuel
           /\ events s'
              = events s
                ++ concat (map (fun e => [EvCreate (request self tools tool_choice (messages s));
                                          EvLogError e]) errs)
       end.
Proof.
  revert s. induction fuel as [|fuel IH]; intros s.
  - exists []. simpl. rewrite app_nil_r. repeat split; [done | done | lia].
  - simpl. destruct (api (attempts s)) as [r|e] eqn:Hapi.
    + exists []. simpl. rewrite Nat.add_0_r. repeat split; first [done | lia].
    + destruct (is_OpenAIError e) eqn:He.
      * destruct (IH (emit (EvLogError e)
                        (attempt (emit (EvCreate (request self tools tool_choice (messages s))) s))))
          as (errs & Herrs & Hmsgs & Hrest).
        exists (e :: errs). split; [|split; [exact Hmsgs|]].
        { intros [|i] e'; simpl.
          - intros [= <-]. by rewrite Nat.add_0_r.
          - intros Hi. destruct (Herrs i e' Hi) as [Hraised ?]. simpl in Hraised.
            by replace (attempts s + S i) with (S (attempts s + i)) by lia. }
        simpl in Hrest.
        destruct (get_response self fuel tools tool_choice _) as [a s'|e' s'|s'];
          simpl; rewrite ?Nat.add_succ_r.
        -- destruct Hrest as (Hnext & Hlen & Hatt & ->).
           repeat (split; [first [done | lia]|]).
           unfold retry_events; simpl; by rewrite <- !app_assoc.
        -- destruct Hrest as (Hnext & Hother & Hlen & Hatt & ->).
           repeat (split; [first [done | lia]|]).
           unfold retry_events; simpl; by rewrite <- !app_assoc.
        -- destruct Hrest as (Hlen & Hatt & ->).
           repeat (split; [first [done | lia]|]).
           simpl; by rewrite <- !app_assoc.
      * exists []. simpl. rewrite Nat.add_0_r.
        repeat split; first [done | lia].
Qed.

(** ** A round that fails *)

(** X5: a round of the tool-calling loop stops at the first requested call
    that fails, and [query] raises its exception: the calls before it have
    been executed and their results stay in the transcript, after the answer
    that requested them; the failing call leaves no message (and is not even
    executed when its arguments do not decode); the calls after it are never
    executed, and the model is not asked again. *)
Theorem tool_round_stops_at_failure (fuel : nat) (tools : list JSON)
    (m : ChatCompletionMessage) (s : State) (done rest : list ToolCall) (c : ToolCall)
    (outs : list (JSON * Value (tool_library self))) (e : PyExc) (evs : list Event) :
  requested m = done ++ c :: rest ->
  executed self done outs ->
  call_failure self c e evs ->
  tool_loop self (S fuel) tools m s
  = Throw e
      {| messages := messages s ++ Assistant m :: executed_messages self done outs;
         attempts := attempts s;
         events := events s ++ executed_events self done outs ++ evs |}.
Proof.
  intros Hreq Hdone Hfail. cbn [tool_loop]. rewrite Hreq.
  destruct (done ++ c :: rest) as [|c0 calls] eqn:Hcalls; [by destruct done|].
  rewrite bind_modify. unfold bind at 1. rewrite <- Hcalls.
  rewrite (execute_calls_fails _ _ _ _ _ _ _ _ Hdone Hfail). simpl.
  by rewrite <- app_assoc.
Qed.

(** ** [search_tools], beyond lists that go through *)

Lemma search_tools_results ads results out s :
  Forall2 (found_for self) ads results ->
  Forall2 (fun e j => json_loads e = Some j) (deduplicated results) out ->
  search_tools self (JArray ads) s
  = Return out
      {| messages := messages s;
         attempts := attempts s;
         events := events s ++ map (fun ad => EvSearch ad (top_k_functions self)) ads |}.
Proof.
  intros Hfound Hparse. unfold search_tools, bind. cbn [iterate ret].
  rewrite <- fresh_from_deduplicated in Hparse.
  by rewrite (search_tools_loop_results self ads results [] [] out s Hfound Hparse).
Qed.

(** X6: [search_tools] iterates over whatever it is given.  A string (what
    its annotation announces) is searched character by character, one search
    per code point with the string of that one character; an object key by
    key; and a number, a truth value or null raises a TypeError before
    anything is searched. *)
Theorem search_tools_iterates_its_argument (s : State) :
  (forall cps results out,
      let chars := map (fun cp => JString (chr cp)) cps in
      Forall2 (found_for self) chars results ->
      Forall2 (fun e j => json_loads e = Some j) (deduplicated results) out ->
      search_tools self (JString (text_of cps)) s
      = Return out
          {| messages := messages s;
             attempts := attempts s;
             events := events s ++ map (fun ad => EvSearch ad (top_k_functions self)) chars |})
  /\ (forall members results out,
         let ks := map (fun kv => JString (fst kv)) members in
         Forall2 (found_for self) ks results ->
         Forall2 (fun e j => json_loads e = Some j) (deduplicated results) out ->
         search_tools self (JObject members) s
         = Return out
             {| messages := messages s;
                attempts := attempts s;
                events := events s ++ map (fun ad => EvSearch ad (top_k_functions self)) ks |})
  /\ (forall j,
         match j with JArray _ | JString _ | JObject _ => False | _ => True end ->
         exists msg, search_tools self j s = Throw (TypeError msg) s).
Proof.
  repeat apply conj.
  - intros cps results out chars Hfound Hparse.
    rewrite <- (search_tools_results chars results out s Hfound Hparse).
    unfold search_tools, bind. cbn [iterate ret].
    by rewrite characters_text_of, map_map.
  - intros members results out ks Hfound Hparse.
    by rewrite <- (search_tools_results ks results out s Hfound Hparse).
  - intros j Hj. destruct j; try done; by eexists.
Qed.

Lemma load_all_fails good doc rest s :
  Forall (fun d => is_Some (json_loads d)) good ->
  json_loads doc = None ->
  load_all (good ++ doc :: rest) s = Throw (JSONDecodeError doc) s.
Proof.
  intros Hgood Hdoc. induction Hgood as [|d good [j Hd] _ IH]; simpl.
  - unfold bind, loads. by rewrite Hdoc.
  - unfold bind at 1, loads. rewrite Hd. cbn [ret]. unfold bind at 1. by rewrite IH.
Qed.

Lemma search_tools_loop_fails done ad rest results out json_res hash_res e s :
  Forall2 (found_for self) done results ->
  Forall2 (fun d j => json_loads d = Some j) (fresh_from hash_res results) out ->
  search_failure self (hash_res ++ concat results) ad e ->
  search_tools_loop self (done ++ ad :: rest) json_res hash_res s
  = Throw e
      {| messages := messages s;
         attempts := attempts s;
         events :=
           events s ++ map (fun ad => EvSearch ad (top_k_functions self)) (done ++ [ad]) |}.
Proof.
  intros Hfound. revert json_res hash_res out s.
  induction Hfound as [|ad0 res done results (found & Hsearch & Hhead) _ IH];
    intros json_res hash_res out s Hparse Hfail.
  - simpl in Hfail. rewrite app_nil_r in Hfail. simpl. rewrite bind_modify. unfold bind at 1.
    destruct Hfail as [Hraise|[(found & Hsearch & Hnone & ->)
                              |(res & good & doc & more & (found & Hsearch & Hhead)
                                & Hunseen & Hgood & Hdoc & ->)]].
    + rewrite Hraise. done.
    + rewrite Hsearch. cbn [lift ret]. unfold bind at 1. rewrite Hnone. done.
    + rewrite Hsearch. cbn [lift ret]. unfold bind at 1.
      destruct (documents found) as [|res' others]; [done|]. injection Hhead as ->.
      cbn [subscript0 ret]. unfold bind at 1. rewrite Hunseen.
      by rewrite (load_all_fails _ _ _ _ Hgood Hdoc).
  - simpl in Hparse.
    apply Forall2_app_inv_l in Hparse as (out1 & out2 & Hout1 & Hout2 & ->).
    simpl in Hfail. rewrite app_assoc in Hfail.
    simpl. rewrite bind_modify. unfold bind at 1. rewrite Hsearch. cbn [lift ret].
    unfold bind at 1.
    destruct (documents found) as [|res' others]; [done|]. injection Hhead as ->.
    cbn [subscript0 ret]. unfold bind at 1. rewrite (load_all_parsed _ _ _ Hout1).
    rewrite (IH _ _ out2 _ Hout2 Hfail). simpl. by rewrite <- !app_assoc.
Qed.

(** X7: [search_tools] stops at the first description whose search fails,
    and raises: the error of the library; an IndexError when the library
    returns no list of documents; the decoding error of the first document,
    among those not returned for an earlier description, that is no JSON.
    The tools found for the descriptions before it are lost, and the
    descriptions after it are never searched. *)
Theorem search_tools_stops_at_failure (done rest : list JSON) (ad : JSON)
    (results : list (list string)) (out : list JSON) (e : PyExc) (s : State) :
  Forall2 (found_for self) done results ->
  Forall2 (fun d j => json_loads d = Some j) (deduplicated results) out ->
  search_failure self (concat results) ad e ->
  search_tools self (JArray (done ++ ad :: rest)) s
  = Throw e
      {| messages := messages s;
         attempts := attempts s;
         events :=
           events s ++ map (fun ad => EvSearch ad (top_k_functions self)) (done ++ [ad]) |}.
Proof.
  intros Hfound Hparse Hfail. unfold search_tools, bind. cbn [iterate ret].
  rewrite <- fresh_from_deduplicated in Hparse.
  by rewrite (search_tools_loop_fails done ad rest results out [] [] e s Hfound Hparse Hfail).
Qed.

Lemma fresh_from_sublist seen results : fresh_from seen results `sublist_of` concat results.
Proof.
  revert seen. induction results as [|res rest IH]; intros seen; simpl; [done|].
  apply sublist_app; [apply sublist_filter | apply IH].
Qed.

Lemma unseen_nil res : unseen [] res = res.
Proof.
  unfold unseen. induction res as [|d res IH]; [done|].
  rewrite filter_cons_True by apply not_elem_of_nil. by rewrite IH.
Qed.

(** X8: [search_tools] returns the tools in the order the library ranked
    them, description after description: they are the decoded documents of a
    subsequence of all the documents returned, so never more than those.  The
    result of the first description is returned whole and first, a document
    it repeats included (only what came with an earlier description is
    dropped); so a call with one description returns just what the library
    found for it. *)
Theorem search_tools_keeps_order (ad : JSON) (ads : list JSON) (res : list string)
    (rest : list (list string)) (out : list JSON) (s : State) :
  Forall2 (found_for self) (ad :: ads) (res :: rest) ->
  Forall2 (fun d j => json_loads d = Some j) (deduplicated (res :: rest)) out ->
  search_tools self (JArray (ad :: ads)) s
  = Return out
      {| messages := messages s;
         attempts := attempts s;
         events :=
           events s ++ map (fun ad => EvSearch ad (top_k_functions self)) (ad :: ads) |}
  /\ (exists kept,
        kept `sublist_of` concat (res :: rest)
        /\ Forall2 (fun d j => json_loads d = Some j) kept out)
  /\ (exists first later,
        out = first ++ later /\ Forall2 (fun d j => json_loads d = Some j) res first)
  /\ length out <= length (concat (res :: rest))
  /\ (ads = [] -> Forall2 (fun d j => json_loads d = Some j) res out).
Proof.
  intros Hfound Hparse.
  split; [by apply (search_tools_results (ad :: ads) (res :: rest))|].
  rewrite <- fresh_from_deduplicated in Hparse.
  split; [|split; [|split]].
  - eexists. split; [apply fresh_from_sublist | exact Hparse].
  - simpl in Hparse. rewrite unseen_nil in Hparse.
    apply Forall2_app_inv_l in Hparse as (first & later & Hfirst & _ & ->).
    by exists first, later.
  - rewrite <- (Forall2_length _ _ _ Hparse). apply sublist_length, fresh_from_sublist.
  - intros ->. apply Forall2_length in Hfound. destruct rest; [|done].
    simpl in Hparse. by rewrite unseen_nil, app_nil_r in Hparse.
Qed.

(** ** The phases of [query], end to end *)

Lemma search_phase_awaits fuel s errs r m c ads results out :
  awaits (attempts s) errs r ->
  head (choices r) = Some m ->
  tool_calls m = Some [c] ->
  name (function c) = "search_tools" ->
  json_loads (arguments (function c)) = Some (JObject [("action_descriptions", JArray ads)]) ->
  Forall2 (found_for self) ads results ->
  Forall2 (fun e j => json_loads e = Some j) (deduplicated results) out ->
  length errs < fuel ->
  search_phase self fuel s
  = Return out
      {| messages :=
           messages s
           ++ [plain_message "user" search_request; Assistant m;
               tool_message (call_id c) "search_tools" "Successfully provided suitable tools."];
         attempts := attempts s + length errs + 1;
         events :=
           events s
           ++ retry_events
                (request self [search_tools_description] (ForcedFunction "search_tools")
                   (messages s ++ [plain_message "user" search_request]))
                errs
           ++ map (fun ad => EvSearch ad (top_k_functions self)) ads |}.
Proof.
  intros Hw Hhead Hcalls Hname Hargs Hfound Hparse Hfuel.
  unfold search_phase. rewrite bind_modify. unfold bind at 1.
  rewrite (get_response_awaits _ _ _ _ _ errs r); [| exact Hw | done].
  unfold bind at 1. rewrite (head_first_message _ _ _ Hhead).
  rewrite (dispatch_search_single _ m c _ Hcalls), Hargs, Hname.
  cbn [String.eqb Ascii.eqb Bool.eqb andb]. unfold bind at 1.
  cbn [call_search_tools String.eqb Ascii.eqb Bool.eqb andb].
  rewrite (search_tools_results ads results out _ Hfound Hparse).
  unfold bind, modify, ret, append. simpl. by rewrite <- !app_assoc.
Qed.

(** X2: the SearchTools phase, end to end.  [query] asks for the tool
    search with the search schema as only tool and the call of search_tools
    forced; when the answer is one search_tools call over a list of
    descriptions, the library is searched once per description, in order, and
    the tools handed to the next phase are the decoded documents it
    returned, without those an earlier description brought.  The transcript
    gets the request, the answer and, whatever was found (nothing at all
    included), the message that suitable tools were provided. *)
Theorem search_phase_finds_tools (fuel : nat) (s : State) (errs : list PyExc)
    (r : ChatCompletion) (m : ChatCompletionMessage) (c : ToolCall) (ads : list JSON)
    (results : list (list string)) (out : list JSON) :
  awaits (attempts s) errs r ->
  head (choices r) = Some m ->
  tool_calls m = Some [c] ->
  name (function c) = "search_tools" ->
  json_loads (arguments (function c)) = Some (JObject [("action_descriptions", JArray ads)]) ->
  Forall2 (found_for self) ads results ->
  Forall2 (fun e j => json_loads e = Some j) (deduplicated results) out ->
  length errs < fuel ->
  let sent :=
    {| req_model := model self;
       req_messages := messages s ++ [plain_message "user" search_request];
       req_tools := [search_tools_description];
       req_temperature := temperature self;
       req_tool_choice := ForcedFunction "search_tools" |} in
  search_phase self fuel s
  = Return out
      {| messages :=
           messages s
           ++ [plain_message "user" search_request; Assistant m;
               tool_message (call_id c) "search_tools" "Successfully provided suitable tools."];
         attempts := attempts s + length errs + 1;
         events :=
           events s ++ retry_events sent errs
           ++ map (fun ad => EvSearch ad (top_k_functions self)) ads |}.
Proof.
  intros Hw Hhead Hcalls Hname Hargs Hfound Hparse Hfuel sent.
  by apply (search_phase_awaits fuel s errs r m c ads results out).
Qed.

(** X9: when the answer to the search request does not carry exactly one
    tool call, [query] raises having sent two requests and nothing to the
    library: the AssertionError when the answer carries a list of calls of
    another length, and the TypeError of [len] when it carries no list at all
    ([tool_calls] is [None]).  Either way the transcript is left with the
    whole exchange so far, the rejected answer last (its calls unanswered). *)
Theorem query_aborts_with_its_exchange (fuel : nat) (prompt : string) (s : State)
    (errs1 errs2 : list PyExc) (r1 r2 : ChatCompletion) (m1 m2 : ChatCompletionMessage) :
  scripted (attempts s) [(errs1, r1); (errs2, r2)] ->
  head (choices r1) = Some m1 ->
  head (choices r2) = Some m2 ->
  length (requested m2) <> 1 ->
  turn_attempts [(errs1, r1); (errs2, r2)] < fuel ->
  let asked := plain_message "user" (decomposition_request prompt) in
  let searching := plain_message "user" search_request in
  query self fuel prompt s
  = Throw
      match tool_calls m2 with
      | Some l =>
          AssertionError
            ("Not exactly one tool search executed, but " +:+ str_nat (length l) +:+ ".")
      | None => TypeError "object of type 'NoneType' has no len()"
      end
      {| messages := messages s ++ [asked; Assistant m1; searching; Assistant m2];
         attempts := attempts s + turn_attempts [(errs1, r1); (errs2, r2)];
         events :=
           events s
           ++ retry_events
                (request self [search_tools_description] (Literal "none")
                   (messages s ++ [asked])) errs1
           ++ retry_events
                (request self [search_tools_description] (ForcedFunction "search_tools")
                   (messages s ++ [asked; Assistant m1; searching])) errs2 |}.
Proof.
  intros (Hw1 & Hw2 & _) Hhead1 Hhead2 Hlen Hfuel asked searching.
  unfold turn_attempts in *. simpl in Hfuel |- *.
  unfold query. unfold bind at 1.
  rewrite (decompose_awaits self fuel prompt s errs1 r1 m1 Hw1 Hhead1); [|lia].
  unfold bind at 1, search_phase. rewrite bind_modify. unfold bind at 1.
  rewrite (get_response_awaits _ _ _ _ _ errs2 r2); [| exact Hw2 | lia].
  unfold bind at 1. rewrite (head_first_message _ _ _ Hhead2).
  unfold requested in Hlen.
  destruct (tool_calls m2) as [l|] eqn:Hcalls.
  - rewrite (dispatch_search_miscounted _ m2 l _ Hcalls Hlen).
    f_equal. unfold append. simpl. f_equal; [by rewrite <- !app_assoc | lia |].
    by rewrite <- !app_assoc.
  - rewrite (dispatch_search_uncounted _ m2 _ Hcalls).
    f_equal. unfold append. simpl. f_equal; [by rewrite <- !app_assoc | lia |].
    by rewrite <- !app_assoc.
Qed.

Lemma library_calls_app evs1 evs2 :
  library_calls (evs1 ++ evs2) = library_calls evs1 ++ library_calls evs2.
Proof. apply List.filter_app. Qed.

Lemma library_calls_retry req errs : library_calls (retry_events req errs) = [].
Proof.
  unfold retry_events. rewrite library_calls_app.
  induction errs as [|e errs IH]; [done|]. simpl. exact IH.
Qed.

Lemma library_calls_executed calls (outs : list (JSON * Value (tool_library self))) :
  library_calls (executed_events self calls outs) = executed_events self calls outs.
Proof.
  revert outs. induction calls as [|c calls IH]; intros [|av outs]; try done.
  unfold executed_events in *. simpl. by rewrite IH.
Qed.

Lemma library_calls_searches (k : Z) ads :
  library_calls (map (fun ad => EvSearch ad k) ads) = map (fun ad => EvSearch ad k) ads.
Proof. induction ads as [|ad ads IH]; [done|]. simpl. by rewrite IH. Qed.

(** All the executions of a run of rounds. *)
Lemma tool_loop_calls fuel tools final ms outss turns s :
  Forall2 (fun m outs => requested m <> [] /\ executed self (requested m) outs) ms outss ->
  requested final = [] ->
  scripted (attempts s) turns ->
  Forall2 (fun t m => head (choices (snd t)) = Some m) turns (tail (ms ++ [final])) ->
  turn_attempts turns < fuel ->
  exists s',
    tool_loop self fuel tools (hd final ms) s = Return final s'
    /\ messages s' = messages s ++ concat (zip_with (round_messages self) ms outss)
    /\ attempts s' = attempts s + turn_attempts turns
    /\ library_calls (events s')
       = library_calls (events s)
         ++ concat (zip_with (fun m outs => executed_events self (requested m) outs) ms outss).
Proof.
  intros Hrounds Hfinal. revert fuel turns s.
  induction Hrounds as [|m outs ms outss [Hsome Hex] _ IH];
    intros fuel turns s Hscript Hturns Hfuel.
  - simpl in *. apply Forall2_nil_inv_r in Hturns as ->.
    exists s. rewrite tool_loop_done by done. simpl.
    rewrite !app_nil_r. repeat split. unfold turn_attempts; simpl; lia.
  - simpl in Hturns. rewrite app_last_head in Hturns.
    apply Forall2_cons_inv_r in Hturns as ([errs r] & turns' & Hhead & Hturns & ->).
    simpl in Hhead. destruct Hscript as [Hw Hscript].
    unfold turn_attempts in Hfuel. simpl in Hfuel. fold (turn_attempts turns') in Hfuel.
    destruct fuel as [|fuel]; [lia|].
    simpl hd. rewrite (tool_loop_round _ _ _ _ _ _ Hsome Hex).
    unfold bind at 1. rewrite (get_response_awaits _ _ _ _ _ errs r); [| exact Hw | lia]. simpl.
    unfold bind at 1. rewrite (head_first_message _ _ _ Hhead).
    match goal with
    | |- context [tool_loop self fuel tools _ ?st] =>
        destruct (IH fuel turns' st) as (s' & Hrun & Hmsgs & Hatt & Hlib);
        [exact Hscript | exact Hturns | lia |]
    end.
    exists s'. split; [exact Hrun|]. rewrite Hmsgs, Hatt, Hlib. simpl.
    split; [by rewrite <- app_assoc|]. split; [unfold turn_attempts; simpl; lia|].
    rewrite !library_calls_app, library_calls_retry, library_calls_executed, app_nil_r.
    by rewrite <- app_assoc.
Qed.

(** X1: [query], end to end.  When the model answers the decomposition
    request, then the search request with one search_tools call over a list
    of descriptions, then the request to use the tools with answers that
    request calls (which go through) until one requests none, [query] returns
    the content of that last answer.  It leaves in the transcript, after what
    was there: the three requests with their answers, the confirmation of the
    tool search after the search answer, and one round per answer that
    requested calls; and it has called the library for the searches, one per
    description, and then for the executions, in the order requested. *)
Theorem query_runs_the_exchange (fuel : nat) (prompt : string) (s : State)
    (errs1 errs2 : list PyExc) (r1 r2 : ChatCompletion) (m1 m2 : ChatCompletionMessage)
    (c : ToolCall) (ads : list JSON) (results : list (list string)) (tools : list JSON)
    (turns : list (list PyExc * ChatCompletion)) (ms : list ChatCompletionMessage)
    (final : ChatCompletionMessage) (outss : list (list (JSON * Value (tool_library self)))) :
  scripted (attempts s) ((errs1, r1) :: (errs2, r2) :: turns) ->
  head (choices r1) = Some m1 ->
  head (choices r2) = Some m2 ->
  tool_calls m2 = Some [c] ->
  name (function c) = "search_tools" ->
  json_loads (arguments (function c)) = Some (JObject [("action_descriptions", JArray ads)]) ->
  Forall2 (found_for self) ads results ->
  Forall2 (fun e j => json_loads e = Some j) (deduplicated results) tools ->
  Forall2 (fun t m => head (choices (snd t)) = Some m) turns (ms ++ [final]) ->
  Forall2 (fun m outs => requested m <> [] /\ executed self (requested m) outs) ms outss ->
  requested final = [] ->
  turn_attempts ((errs1, r1) :: (errs2, r2) :: turns) < fuel ->
  exists s',
    query self fuel prompt s = Return (content final) s'
    /\ messages s'
       = messages s
         ++ [plain_message "user" (decomposition_request prompt); Assistant m1;
             plain_message "user" search_request; Assistant m2;
             tool_message (call_id c) "search_tools" "Successfully provided suitable tools.";
             plain_message "user" (solve_request (content m1))]
         ++ concat (zip_with (round_messages self) ms outss)
         ++ [Assistant final]
    /\ attempts s' = attempts s + turn_attempts ((errs1, r1) :: (errs2, r2) :: turns)
    /\ library_calls (events s')
       = library_calls (events s)
         ++ map (fun ad => EvSearch ad (top_k_functions self)) ads
         ++ concat (zip_with (fun m outs => executed_events self (requested m) outs) ms outss).
Proof.
  intros (Hw1 & Hw2 & Hscript) Hhead1 Hhead2 Hcalls Hname Hargs Hfound Hparse
    Hturns Hrounds Hfinal Hfuel.
  rewrite app_last_head in Hturns.
  apply Forall2_cons_inv_r in Hturns as ([errs3 r3] & turns' & Hhead3 & Hturns & ->).
  simpl in Hhead3. destruct Hscript as [Hw3 Hscript].
  unfold turn_attempts in Hfuel |- *. simpl in Hfuel |- *.
  fold (turn_attempts turns') in Hfuel |- *.
  unfold query. unfold bind at 1.
  rewrite (decompose_awaits self fuel prompt s errs1 r1 m1 Hw1 Hhead1); [|lia].
  unfold bind at 1.
  rewrite (search_phase_awaits fuel _ errs2 r2 m2 c ads results tools);
    [| exact Hw2 | done | done | done | done | done | done | lia].
  unfold tool_phase, respond_with_tools. unfold bind at 1. rewrite bind_modify.
  unfold bind at 1.
  rewrite (get_response_awaits _ _ _ _ _ errs3 r3); [| exact Hw3 | simpl; lia].
  rewrite (head_first_message _ _ _ Hhead3).
  unfold answer. unfold bind at 1.
  match goal with
  | |- context [tool_loop self fuel tools _ ?st] =>
      destruct (tool_loop_calls fuel tools final ms outss turns' st)
        as (s' & Hrun & Hmsgs & Hatt & Hlib); [done | done | exact Hscript | done | lia |]
  end.
  rewrite Hrun. rewrite bind_modify. unfold ret.
  eexists. split; [reflexivity|]. simpl. rewrite Hmsgs, Hatt, Hlib. simpl.
  split; [by rewrite <- !app_assoc|]. split; [lia|].
  rewrite !library_calls_app, !library_calls_retry, library_calls_searches, !app_nil_r.
  by rewrite <- !app_assoc.
Qed.

End Further.

(** ** What every run of a phase observes *)

Section Keeping.

Context {world : World}.

Variable self : TulipAgent.

Variable P : list Message -> list Message -> Event -> Prop.

Hypothesis P_mono :
  forall before before' after after' ev,
    before `prefix_of` before' -> after' `prefix_of` after ->
    P before' after' ev -> P before after ev.

Hypothesis P_log : forall a e, is_OpenAIError e = true -> P a a (EvLogError e).
Hypothesis P_search : forall a ad, P a a (EvSearch ad (top_k_functions self)).
Hypothesis P_execute : forall a f x, P a a (EvExecute f x).

Lemma adds_refl s : adds P s s.
Proof. split; [apply extends_refl|]. exists []. by rewrite app_nil_r. Qed.

Lemma adds_trans s1 s2 s3 : adds P s1 s2 -> adds P s2 s3 -> adds P s1 s3.
Proof using P_mono.
  intros [H12 (evs1 & Hev1 & HP1)] [H23 (evs2 & Hev2 & HP2)].
  split; [by eapply extends_trans|].
  exists (evs1 ++ evs2). split; [by rewrite Hev2, Hev1, app_assoc|].
  apply Forall_app. split.
  - eapply Forall_impl; [exact HP1|]. intros ev. apply P_mono; [done | apply H23].
  - eapply Forall_impl; [exact HP2|]. intros ev. apply P_mono; [apply H12 | done].
Qed.

Lemma adds_append m s : adds P s (append m s).
Proof. split; [apply extends_append|]. exists []. by rewrite app_nil_r. Qed.

Lemma adds_attempt s : adds P s (attempt s).
Proof. split; [apply extends_attempt|]. exists []. by rewrite app_nil_r. Qed.

Lemma adds_emit ev s : P (messages s) (messages s) ev -> adds P s (emit ev s).
Proof. intros Hev. split; [apply extends_emit|]. exists [ev]. split; [done | by constructor]. Qed.

Lemma keeps_ret {A} (a : A) : keeps P (ret a).
Proof. intros s. apply adds_refl. Qed.

Lemma keeps_raise {A} e : keeps P (@raise A e).
Proof. intros s. apply adds_refl. Qed.

Lemma keeps_modify f : (forall s, adds P s (f s)) -> keeps P (modify f).
Proof. intros Hf s. apply Hf. Qed.

Lemma keeps_lift {A} (r : PyExc + A) : keeps P (lift r).
Proof. destruct r; [apply keeps_raise | apply keeps_ret]. Qed.

Lemma keeps_bind {A B} (c : M A) (k : A -> M B) :
  keeps P c -> (forall a, keeps P (k a)) -> keeps P (bind c k).
Proof using P_mono.
  intros Hc Hk s. pose proof (Hc s) as Hcs. unfold bind.
  destruct (c s) as [a s1|e s1|s1]; simpl in *; [| done | done].
  eapply adds_trans; [exact Hcs | apply Hk].
Qed.

Create HintDb keeps.
#[local] Hint Resolve keeps_ret keeps_raise keeps_modify keeps_lift keeps_bind
  adds_append adds_emit : keeps.

Lemma keeps_loads doc : keeps P (loads doc).
Proof. unfold loads. destruct (json_loads doc); auto with keeps. Qed.

Lemma keeps_subscript0 {A} (l : list A) : keeps P (subscript0 l).
Proof. destruct l; simpl; auto with keeps. Qed.

Lemma keeps_first_message response : keeps P (first_message response).
Proof. apply keeps_subscript0. Qed.

Lemma keeps_assert cond msg : keeps P (assert cond msg).
Proof. destruct cond; simpl; auto with keeps. Qed.

Lemma keeps_len tcs : keeps P (len tcs).
Proof. destruct tcs; simpl; auto with keeps. Qed.

Lemma keeps_iterate j : keeps P (iterate j).
Proof. destruct j; simpl; auto with keeps. Qed.

#[local] Hint Resolve keeps_loads keeps_subscript0 keeps_first_message keeps_assert
  keeps_len keeps_iterate : keeps.

Lemma keeps_get_response fuel tools tool_choice :
  (forall a, P a a (EvCreate (request self tools tool_choice a))) ->
  keeps P (get_response self fuel tools tool_choice).
Proof using P_mono P_log.
  intros Hcreate. induction fuel as [|fuel IH]; intros s; simpl; [apply adds_refl|].
  assert (Hsent : adds P s
            (attempt (emit (EvCreate (request self tools tool_choice (messages s))) s))).
  { eapply adds_trans; [apply adds_emit, Hcreate | apply adds_attempt]. }
  destruct (api (attempts s)) as [r|e]; [exact Hsent|].
  destruct (is_OpenAIError e) eqn:He; [| exact Hsent].
  eapply adds_trans; [exact Hsent|].
  eapply adds_trans; [| apply IH]. by apply adds_emit, P_log.
Qed.

Lemma keeps_load_all docs : keeps P (load_all docs).
Proof using P_mono. induction docs; simpl; auto with keeps. Qed.

#[local] Hint Resolve keeps_get_response keeps_load_all : keeps.

Lemma keeps_search_tools_loop ads json_res hash_res :
  keeps P (search_tools_loop self ads json_res hash_res).
Proof using P_mono P_search.
  revert json_res hash_res. induction ads; intros; simpl; auto 10 with keeps.
Qed.

#[local] Hint Resolve keeps_search_tools_loop : keeps.

Lemma keeps_call_search_tools args : keeps P (call_search_tools self args).
Proof using P_mono P_search.
  unfold call_search_tools, search_tools.
  destruct args as [| | | | |[|[k v] [|]]]; auto with keeps.
  destruct (String.eqb k "action_descriptions"); auto with keeps.
Qed.

#[local] Hint Resolve keeps_call_search_tools : keeps.

Lemma keeps_search_calls calls tools : keeps P (search_calls self calls tools).
Proof using P_mono P_search.
  revert tools. induction calls; intros; simpl; auto 10 with keeps.
Qed.

Lemma keeps_execute_calls calls : keeps P (execute_calls self calls).
Proof using P_mono P_execute. induction calls; simpl; auto 10 with keeps. Qed.

#[local] Hint Resolve keeps_search_calls keeps_execute_calls : keeps.

Lemma keeps_decompose fuel prompt :
  (forall a, P a a (EvCreate (request self [search_tools_description] (Literal "none") a))) ->
  keeps P (decompose self fuel prompt).
Proof using P_mono P_log. intros Hcreate. unfold decompose. auto 10 with keeps. Qed.

Lemma keeps_search_phase fuel :
  (forall a, P a a (EvCreate (request self [search_tools_description]
                                (ForcedFunction "search_tools") a))) ->
  keeps P (search_phase self fuel).
Proof using P_mono P_log P_search.
  intros Hcreate. unfold search_phase, dispatch_search. auto 10 with keeps.
Qed.

Lemma keeps_tool_loop fuel tools m :
  (forall a, P a a (EvCreate (request self tools (Literal "auto") a))) ->
  keeps P (tool_loop self fuel tools m).
Proof using P_mono P_log P_execute.
  intros Hcreate. revert m. induction fuel as [|fuel IH]; intros m; simpl;
    destruct (requested m) as [|c calls].
  - auto with keeps.
  - intros s. apply adds_refl.
  - auto with keeps.
  - auto 10 with keeps.
Qed.

#[local] Hint Resolve keeps_decompose keeps_search_phase keeps_tool_loop : keeps.

Lemma keeps_tool_phase fuel steps tools :
  (forall a, P a a (EvCreate (request self tools (Literal "auto") a))) ->
  keeps P (tool_phase self fuel steps tools).
Proof using P_mono P_log P_execute.
  intros Hcreate. unfold tool_phase, respond_with_tools, answer. auto 10 with keeps.
Qed.

#[local] Hint Resolve keeps_tool_phase : keeps.

Lemma keeps_query fuel prompt :
  (forall tools tool_choice a, P a a (EvCreate (request self tools tool_choice a))) ->
  keeps P (query self fuel prompt).
Proof using P_mono P_log P_search P_execute.
  intros Hcreate. unfold query. auto 10 with keeps.
Qed.

End Keeping.

Lemma adds_new_events P s s' : adds P s s' -> Forall (P (messages s) (messages s')) (new_events s s').
Proof.
  intros [_ (evs & Hevs & HP)]. unfold new_events. by rewrite Hevs, drop_app_length.
Qed.

Section Observed.

Context {world : World}.

Variable self : TulipAgent.

(** X10: the phases of [query] keep to their part, however they end (answer,
    exception, or still waiting).  Decompose only sends requests, with the
    search schema as tool and tool choice none (and logs API errors); the
    SearchTools phase sends its requests with the call of search_tools
    forced, and calls the library only to search, with the agent's
    [top_k_functions]; the tool-use phase sends its requests with the tools
    it was given (tool choice auto, or none when there is no tool), and calls
    the library only to execute. *)
Theorem phases_keep_to_their_part (fuel : nat) (prompt : string) (steps : option string)
    (tools : list JSON) (s : State) :
  Forall
    (fun ev => is_request_with [search_tools_description] (Literal "none") ev
               \/ is_error_log ev)
    (new_events s (final_state (decompose self fuel prompt s)))
  /\ Forall
       (fun ev => is_request_with [search_tools_description] (ForcedFunction "search_tools") ev
                  \/ is_error_log ev \/ is_search (top_k_functions self) ev)
       (new_events s (final_state (search_phase self fuel s)))
  /\ Forall
       (fun ev => is_request_with tools (auto_choice tools) ev
                  \/ is_error_log ev \/ is_execution ev)
       (new_events s (final_state (tool_phase self fuel steps tools s))).
Proof.
  repeat apply conj.
  - apply (adds_new_events
             (fun _ _ ev => is_request_with [search_tools_description] (Literal "none") ev
                            \/ is_error_log ev)).
    apply keeps_decompose; [done | | ].
    + intros a e He. right. by exists e.
    + intros a. left. by eexists.
  - apply (adds_new_events
             (fun _ _ ev =>
                is_request_with [search_tools_description] (ForcedFunction "search_tools") ev
                \/ is_error_log ev \/ is_search (top_k_functions self) ev)).
    apply keeps_search_phase; [done | | | ].
    + intros a e He. right. left. by exists e.
    + intros a ad. right. right. by exists ad.
    + intros a. left. by eexists.
  - apply (adds_new_events
             (fun _ _ ev => is_request_with tools (auto_choice tools) ev
                            \/ is_error_log ev \/ is_execution ev)).
    apply keeps_tool_phase; [done | | | ].
    + intros a e He. right. left. by exists e.
    + intros a f x. right. right. by exists f, x.
    + intros a. left. eexists. split; [done|]. by destruct tools.
Qed.

Lemma sends_transcript_mono before before' after after' ev :
  before `prefix_of` before' -> after' `prefix_of` after ->
  sends_transcript self before' after' ev -> sends_transcript self before after ev.
Proof.
  intros Hb Ha. destruct ev as [req| | |]; simpl; try done.
  intros (H1 & H2 & H3 & H4). repeat split; try done; by etrans.
Qed.

(** X11: every request [query] sends, in whatever run, carries the
    transcript as it stands when it is sent: everything that was in it when
    the query started (nothing is ever trimmed or summarised away), and
    nothing that is not in it in the end; and it names the model and the
    temperature of the agent. *)
Theorem query_sends_the_transcript (fuel : nat) (prompt : string) (s : State) :
  Forall
    (fun ev =>
       forall req,
         ev = EvCreate req ->
         messages s `prefix_of` req_messages req
         /\ req_messages req `prefix_of` messages (final_state (query self fuel prompt s))
         /\ req_model req = model self
         /\ req_temperature req = temperature self)
    (new_events s (final_state (query self fuel prompt s))).
Proof.
  eapply Forall_impl.
  - apply (adds_new_events (sends_transcript self)).
    apply keeps_query; try done.
    apply sends_transcript_mono.
  - intros ev Hev req ->. exact Hev.
Qed.

(** X14: the system prompt that [__init__] puts first in the transcript,
    when the agent has instructions, leads every request of every query made
    on that agent afterwards. *)
Theorem system_prompt_leads (fuel : nat) (prompt : string) (s : State) :
  instructions self <> EmptyString ->
  messages (init self) `prefix_of` messages s ->
  Forall
    (fun ev =>
       forall req,
         ev = EvCreate req ->
         head (req_messages req) = Some (plain_message "system" (instructions self)))
    (new_events s (final_state (query self fuel prompt s))).
Proof.
  intros Hsome Hinit.
  eapply Forall_impl.
  - apply (adds_new_events (sends_transcript self)).
    apply keeps_query; try done.
    apply sends_transcript_mono.
  - intros ev Hev req ->. destruct Hev as (Hstart & _).
    assert (Hsys : [plain_message "system" (instructions self)] `prefix_of` req_messages req).
    { etrans; [|exact Hstart]. etrans; [|exact Hinit].
      unfold init. simpl. by destruct (instructions self). }
    destruct Hsys as [more ->]. done.
Qed.

End Observed.

(** ** The inline requests and the templates; the example tools *)

(** X12: the two requests [query] builds inline follow templates of
    prompts.py: the request to use the tools is [SOLVE_WITH_TOOLS] filled in
    with the steps, less its final line break; the decomposition request is
    [TASK_DECOMPOSITION] filled in with the user request, whitespace apart. *)
Theorem inline_requests_follow_templates (prompt : string) (steps : option string) :
  SOLVE_WITH_TOOLS (str_content steps) = solve_request steps +:+ nl
  /\ squeeze (decomposition_request prompt) = squeeze (TASK_DECOMPOSITION prompt)
  /\ decomposition_request prompt <> TASK_DECOMPOSITION prompt.
Proof.
  repeat apply conj.
  - unfold SOLVE_WITH_TOOLS, solve_request.
    generalize (str_content steps). intros text.
    assert (Hassoc : forall a b c : string, (a +:+ b) +:+ c = a +:+ (b +:+ c)).
    { intros a b c. induction a as [|x a IH]; [done|].
      change (String x ((a +:+ b) +:+ c) = String x (a +:+ b +:+ c)). by rewrite IH. }
    rewrite !Hassoc. reflexivity.
  - unfold decomposition_request, TASK_DECOMPOSITION.
    rewrite !squeeze_app. generalize (squeeze prompt). intros sp. by vm_compute.
  - unfold decomposition_request, TASK_DECOMPOSITION. vm_compute. intros Heq.
    discriminate Heq.
Qed.

(** X13: the two example tools know the same countries: [capital] answers
    Unknown exactly when [language] does, namely for the countries that are
    none of the four listed (spelling and case included); and on the
    countries they know, both are one to one. *)
Theorem capital_and_language_agree (country other : string) :
  (capital country = "Unknown" <-> country ∉ ["France"; "Germany"; "Italy"; "Japan"])
  /\ (capital country = "Unknown" <-> language country = "Unknown")
  /\ (capital country <> "Unknown" -> capital country = capital other -> country = other)
  /\ (language country <> "Unknown" -> language country = language other -> country = other).
Proof.
  assert (Hcases : forall c : string,
             c ∈ ["France"; "Germany"; "Italy"; "Japan"]
             \/ ((c ∉ ["France"; "Germany"; "Italy"; "Japan"])
                 /\ capital c = "Unknown" /\ language c = "Unknown")).
  { intros c. destruct (decide (c ∈ ["France"; "Germany"; "Italy"; "Japan"])) as [Hin|Hout];
      [by left|right].
    split; [done|]. unfold capital, language, capitals, languages.
    by rewrite !lookup_unlisted. }
  assert (Hlisted : forall c : string,
             c ∈ ["France"; "Germany"; "Italy"; "Japan"] ->
             c = "France" \/ c = "Germany" \/ c = "Italy" \/ c = "Japan").
  { intros c Hin. repeat (apply elem_of_cons in Hin as [Hin|Hin]; [tauto|]).
    by apply elem_of_nil in Hin. }
  split; [|split; [|split]].
  - destruct (Hcases country) as [Hin|(Hout & Hc & _)]; [|done].
    split; [|done]. intros Hun.
    destruct (Hlisted _ Hin) as [-> | [-> | [-> | -> ]]]; by vm_compute in Hun.
  - destruct (Hcases country) as [Hin|(Hout & Hc & Hl)]; [|by rewrite Hc, Hl].
    destruct (Hlisted _ Hin) as [-> | [-> | [-> | -> ]]]; by vm_compute.
  - intros Hknown Heq.
    destruct (Hcases country) as [Hin|(_ & Hc & _)]; [|done].
    destruct (Hcases other) as [Hin'|(_ & Hc' & _)].
    + destruct (Hlisted _ Hin) as [-> | [-> | [-> | -> ]]];
        destruct (Hlisted _ Hin') as [-> | [-> | [-> | -> ]]]; try done; by vm_compute in Heq.
    + rewrite Hc' in Heq. done.
  - intros Hknown Heq.
    destruct (Hcases country) as [Hin|(_ & _ & Hl)]; [|done].
    destruct (Hcases other) as [Hin'|(_ & _ & Hl')].
    + destruct (Hlisted _ Hin) as [-> | [-> | [-> | -> ]]];
        destruct (Hlisted _ Hin') as [-> | [-> | [-> | -> ]]]; try done; by vm_compute in Heq.
    + rewrite Hl' in Heq. done.
Qed.

(** * The properties on the scripted exchange *)

Section Scripted.

Import Demo.

Ltac awaiting :=
  split; [intros [|[|i]] e; simpl; intros [= <-]; by vm_compute | by vm_compute].

Ltac awaiting_none :=
  split; [intros i e; by rewrite lookup_nil | by vm_compute].

(** A country the tables do not list. *)
Lemma capital_language_lookup_demo :
  capital "Spain" = "Unknown" /\ language "Spain" = "Unknown".
Proof.
  apply (proj1 (capital_language_lookup "Spain")).
  intros Hin. repeat (apply elem_of_cons in Hin as [Hin|Hin]; [discriminate|]).
  by apply elem_of_nil in Hin.
Defined.

(** One error, then the answer; and an endpoint that never answers. *)
Lemma get_response_retries_demo :
  get_response agent 2 [] (Literal "auto") before_answer
  = Return {| choices := [final_answer] |}
      {| messages := [];
         attempts := 5;
         events :=
           retry_events (request agent [] (Literal "auto") []) [rate_limit] |}
  /\ (exists s',
        get_response (world := world_offline) agent 7 [] (Literal "auto") before_answer
        = Running s'
        /\ attempts s' = 10).
Proof.
  split.
  - apply (proj1 (get_response_retries_until_answered agent [] (Literal "auto") before_answer)
             [rate_limit] {| choices := [final_answer] |} 2).
    + awaiting.
    + simpl. lia.
  - apply (proj1 (proj2 (get_response_retries_until_answered (world := world_offline)
                           agent [] (Literal "auto") before_answer)) 7).
    intros i _. by exists rate_limit.
Defined.

(** The exchange from the request to use the tools on. *)
Lemma tool_loop_terminates_demo :
  exists s',
    tool_phase agent 4 (content steps) [] before_tools
    = Return (Some "The capital of France is Paris.") s'
    /\ messages s'
       = [plain_message "user" (solve_request (content steps));
          Assistant capital_call; tool_message "call_2" "capital" "Paris";
          Assistant final_answer]
    /\ attempts s' = 5.
Proof.
  apply (proj1 (proj2 (tool_loop_terminates agent 4 (content steps) [] final_answer [capital_call]
                  [([], {| choices := [capital_call] |});
                   ([rate_limit], {| choices := [final_answer] |})]
                  before_tools
                  ltac:(by repeat constructor)
                  eq_refl
                  ltac:(split; [awaiting_none | split; [awaiting | exact I]])
                  ltac:(by repeat constructor)
                  ltac:(vm_compute; lia)))
           [[(france, "Paris")]]).
  repeat constructor; by vm_compute.
Defined.

(** C2, refuted as stated: the model answers the request to use the tools
    with three calls, the second with arguments that broke off, and its next
    answer would carry no call.  The loop does not get to that answer: it
    ends in its first round with the JSONDecodeError of the second call,
    the first call executed, the third one not, and the model not asked
    again; so does the whole query. *)
Lemma broken_call_ends_the_loop :
  requested Cases.three_calls <> []
  /\ requested final_answer = []
  /\ scripted (world := Cases.world_garbled) 2
       [([], {| choices := [Cases.three_calls] |}); ([], {| choices := [final_answer] |})]
  /\ (exists s',
        tool_phase (world := Cases.world_garbled) agent 10 (content steps) Cases.found_tools
          before_tools
        = Throw (JSONDecodeError garbled_args) s'
        /\ messages s'
           = [plain_message "user" (solve_request (content steps));
              Assistant Cases.three_calls; tool_message "call_2" "capital" "Paris"]
        /\ attempts s' = 3
        /\ library_calls (events s') = [EvExecute "capital" france])
  /\ (exists s',
        query (world := Cases.world_garbled) agent 10 question (init agent)
        = Throw (JSONDecodeError garbled_args) s'
        /\ attempts s' = 3).
Proof.
  split; [discriminate|]. split; [reflexivity|]. split.
  { split; [awaiting_none|]. split; [awaiting_none | exact I]. }
  split; eexists; (split; [by vm_compute|]); repeat split; by vm_compute.
Qed.


(** The first request of the exchange and its answer. *)
Lemma decompose_sends_template_demo :
  decompose agent 1 question (init agent)
  = Return steps
      {| messages :=
           [plain_message "system" (instructions agent);
            plain_message "user" (decomposition_request question);
            Assistant steps];
         attempts := 1;
         events :=
           [EvCreate
              {| req_model := "gpt-4-0125-preview";
                 req_messages :=
                   [plain_message "system" (instructions agent);
                    plain_message "user" (decomposition_request question)];
                 req_tools := [search_tools_description];
                 req_temperature := 0;
                 req_tool_choice := Literal "none" |}] |}.
Proof.
  apply (proj1 (decompose_sends_template agent 1 question (init agent) []
                  {| choices := [steps] |} steps
                  ltac:(awaiting_none) eq_refl ltac:(simpl; lia))).
Defined.

(** Two descriptions whose results overlap: the second adds nothing. *)
Lemma search_tools_deduplicates_demo :
  search_tools agent (JArray descriptions) (init agent)
  = Return [JObject [("name", JString "capital")]; JObject [("name", JString "language")]]
      {| messages := messages (init agent);
         attempts := 0;
         events := [EvSearch (JString "find the capital of a country") 3;
                    EvSearch (JString "find the language of a country") 3] |}.
Proof.
  apply (proj1 (search_tools_deduplicates agent descriptions
                  [[capital_doc; language_doc]; [language_doc; capital_doc]]
                  [JObject [("name", JString "capital")]; JObject [("name", JString "language")]]
                  (init agent)
                  ltac:(repeat constructor; eexists; split; reflexivity)
                  ltac:(vm_compute; repeat constructor))).
Defined.

(** The search answer of the exchange goes through. *)
Lemma search_phase_assertions_demo :
  dispatch_search agent (search_call search_args) (init agent)
  = Return [JObject [("name", JString "capital")]; JObject [("name", JString "language")]]
      (append (tool_message "call_1" "search_tools" "Successfully provided suitable tools.")
         (final_state
            (search_tools agent (JArray descriptions)
               (append (Assistant (search_call search_args)) (init agent))))).
Proof.
  apply (proj2 (proj2 (proj2 (proj2 (proj2 (proj2
           (search_phase_assertions agent (search_call search_args) (init agent)))))))
           {| call_id := "call_1";
              function := {| name := "search_tools"; arguments := search_args |} |}
           (JArray descriptions)); by vm_compute.
Defined.

(** A search call that follows the schema to the letter. *)
Lemma search_tools_schema_inconsistent_demo :
  exists msg,
    dispatch_search agent (search_call required_args) (init agent)
    = Throw (TypeError msg) (append (Assistant (search_call required_args)) (init agent)).
Proof.
  apply (proj2 (proj2 (proj2 (proj2 (proj2 (proj2
           (search_tools_schema_inconsistent agent (init agent)))))))
           (search_call required_args)
           {| call_id := "call_1";
              function := {| name := "search_tools"; arguments := required_args |} |}
           (JObject [("problem_description", JString "find the capital of a country")]));
    by vm_compute.
Defined.

(** C1, refuted as stated: an answer with exactly one tool call, named
    search_tools, does not make the phase go on.  The query aborts when the
    call carries the one parameter the schema requires (on unpacking the
    arguments), and when its arguments do not decode.  (Nor does an abort of
    the phase always come from an assertion: a single call of another tool
    whose arguments do not decode stops at [json.loads], and an answer in
    plain words, whose [tool_calls] is [None], at [len].) *)
Lemma one_search_call_still_aborts :
  (one_search_call (search_call required_args)
   /\ exists s',
       query (world := world_required) agent 10 question (init agent)
       = Throw (TypeError "search_tools() got an unexpected keyword argument") s')
  /\ (one_search_call (search_call garbled_args)
      /\ exists s',
          dispatch_search agent (search_call garbled_args) (init agent)
          = Throw (JSONDecodeError garbled_args) s')
  /\ (exists s',
        dispatch_search agent garbled_call (init agent)
        = Throw (JSONDecodeError garbled_args) s')
  /\ (exists s',
        dispatch_search agent final_answer (init agent)
        = Throw (TypeError "object of type 'NoneType' has no len()") s').
Proof.
  repeat split; try (by eexists); eexists; by vm_compute.
Qed.

(** C6, refuted as stated: the transcript of a query lives on after the
    query has returned; the next query on the same agent sends all of it,
    the earlier question included, to the model. *)
Lemma transcript_outlives_query :
  first_run = Return (Some "The capital of France is Paris.") (final_state first_run)
  /\ exists req,
       events (final_state second_run) !! length (events (final_state first_run))
       = Some (EvCreate req)
       /\ req_messages req !! 1
          = Some (plain_message "user" (decomposition_request question))
       /\ req_messages req
          = messages (final_state first_run)
            ++ [plain_message "user"
                  (decomposition_request "And which language is spoken there?")].
Proof.
  split; [by vm_compute|]. eexists. split; [by vm_compute|]. split; by vm_compute.
Qed.

(** The whole exchange, run: the tool search finds both tools, [capital] is
    executed on France, and the answer of the model is returned. *)
Example first_run_answers :
  exists s',
    first_run = Return (Some "The capital of France is Paris.") s'
    /\ attempts s' = 5
    /\ omap (fun ev => match ev with EvExecute f a => Some (f, a) | _ => None end) (events s')
       = [("capital", france)]
    /\ tool_message "call_2" "capital" "Paris" ∈ messages s'.
Proof.
  eexists. split; [by vm_compute|]. split; [by vm_compute|]. split; [by vm_compute|].
  vm_compute. repeat first [apply list_elem_of_here | apply list_elem_of_further].
Qed.

End Scripted.

(** * The further properties on scripted exchanges *)

Section ScriptedFurther.

Import Demo Cases.

Ltac awaiting' :=
  split; [intros [|[|i]] e; simpl; intros [= <-]; by vm_compute | by vm_compute].

Ltac awaiting_none' :=
  split; [intros i e; by rewrite lookup_nil | by vm_compute].

(** The whole first run of the demonstration. *)
Lemma query_runs_the_exchange_demo :
  exists s',
    query agent 10 question (init agent) = Return (Some "The capital of France is Paris.") s'
    /\ attempts s' = 5
    /\ library_calls (events s')
       = [EvSearch (JString "find the capital of a country") 3;
          EvSearch (JString "find the language of a country") 3;
          EvExecute "capital" france].
Proof.
  destruct (query_runs_the_exchange agent 10 question (init agent) [] []
              {| choices := [steps] |} {| choices := [search_call search_args] |}
              steps (search_call search_args)
              {| call_id := "call_1";
                 function := {| name := "search_tools"; arguments := search_args |} |}
              descriptions found_results found_tools
              [([], {| choices := [capital_call] |});
               ([rate_limit], {| choices := [final_answer] |})]
              [capital_call] final_answer [[(france, "Paris")]])
    as (s' & Hrun & _ & Hatt & Hlib).
  - split; [awaiting_none'|]. split; [awaiting_none'|].
    split; [awaiting_none'|]. split; [awaiting' | exact I].
  - reflexivity.
  - reflexivity.
  - reflexivity.
  - reflexivity.
  - by vm_compute.
  - repeat constructor; eexists; split; reflexivity.
  - vm_compute. repeat constructor.
  - repeat constructor.
  - repeat constructor; by vm_compute.
  - reflexivity.
  - vm_compute. lia.
  - exists s'. split; [exact Hrun|]. split; [exact Hatt | exact Hlib].
Defined.

(** The search phase of the demonstration. *)
Lemma search_phase_finds_tools_demo :
  search_phase agent 1 before_search
  = Return found_tools
      {| messages :=
           [plain_message "user" search_request; Assistant (search_call search_args);
            tool_message "call_1" "search_tools" "Successfully provided suitable tools."];
         attempts := 2;
         events :=
           [EvCreate
              {| req_model := "gpt-4-0125-preview";
                 req_messages := [plain_message "user" search_request];
                 req_tools := [search_tools_description];
                 req_temperature := 0;
                 req_tool_choice := ForcedFunction "search_tools" |};
            EvSearch (JString "find the capital of a country") 3;
            EvSearch (JString "find the language of a country") 3] |}.
Proof.
  apply (search_phase_finds_tools agent 1 before_search []
           {| choices := [search_call search_args] |} (search_call search_args)
           {| call_id := "call_1";
              function := {| name := "search_tools"; arguments := search_args |} |}
           descriptions found_results found_tools).
  - awaiting_none'.
  - reflexivity.
  - reflexivity.
  - reflexivity.
  - by vm_compute.
  - repeat constructor; eexists; split; reflexivity.
  - vm_compute. repeat constructor.
  - simpl. lia.
Defined.

(** A connection that breaks after one API error. *)
Lemma get_response_lets_other_errors_through_demo :
  get_response (world := world_broken) agent 2 [] (Literal "auto") nothing_yet
  = Throw connection_reset
      {| messages := [];
         attempts := 2;
         events :=
           [EvCreate (request agent [] (Literal "auto") []); EvLogError rate_limit;
            EvCreate (request agent [] (Literal "auto") [])] |}.
Proof.
  apply (get_response_lets_other_errors_through (world := world_broken) agent 2 []
           (Literal "auto") nothing_yet [rate_limit] connection_reset).
  - intros [|[|i]] e; simpl; intros [= <-]; by vm_compute.
  - by vm_compute.
  - reflexivity.
  - simpl. lia.
Defined.

(** Three calls, the second one broken: one result, then the exception. *)
Lemma tool_round_stops_at_failure_demo :
  tool_loop agent 1 [] three_calls nothing_yet
  = Throw (JSONDecodeError garbled_args)
      {| messages := [Assistant three_calls; tool_message "call_2" "capital" "Paris"];
         attempts := 0;
         events := [EvExecute "capital" france] |}.
Proof.
  apply (tool_round_stops_at_failure agent 0 [] three_calls nothing_yet
           [first_call] [last_call] broken_call [(france, "Paris")]
           (JSONDecodeError garbled_args) []).
  - reflexivity.
  - repeat constructor; by vm_compute.
  - left. repeat split; by vm_compute.
Defined.

(** A description the library refuses: the third one is never searched. *)
Lemma search_tools_stops_at_failure_demo :
  search_tools agent (JArray odd_descriptions) nothing_yet
  = Throw (TypeError "problem_description must be a string")
      {| messages := [];
         attempts := 0;
         events := [EvSearch (JString "find the capital of a country") 3;
                    EvSearch (JNumber "7") 3] |}.
Proof.
  apply (search_tools_stops_at_failure agent [JString "find the capital of a country"]
           [JString "find the language of a country"] (JNumber "7")
           [[capital_doc; language_doc]] found_tools
           (TypeError "problem_description must be a string") nothing_yet).
  - repeat constructor; eexists; split; reflexivity.
  - vm_compute. repeat constructor.
  - left. reflexivity.
Defined.

(** Two search calls in the answer, and an answer in plain words without a
    call: the query stops, the exchange stays. *)
Lemma query_aborts_with_its_exchange_demo :
  (exists s',
      query (world := world_double) agent 3 question nothing_yet
      = Throw (AssertionError "Not exactly one tool search executed, but 2.") s'
      /\ messages s'
         = [plain_message "user" (decomposition_request question); Assistant steps;
            plain_message "user" search_request; Assistant double_search]
      /\ library_calls (events s') = [])
  /\ (exists s',
        query (world := world_wordy) agent 3 question nothing_yet
        = Throw (TypeError "object of type 'NoneType' has no len()") s'
        /\ messages s'
           = [plain_message "user" (decomposition_request question); Assistant steps;
              plain_message "user" search_request; Assistant final_answer]
        /\ library_calls (events s') = []).
Proof.
  split.
  - eexists. split; [|split].
    + refine (query_aborts_with_its_exchange (world := world_double) agent 3 question
                nothing_yet [] [] {| choices := [steps] |} {| choices := [double_search] |}
                steps double_search _ _ _ _ _).
      * split; [awaiting_none'|]. split; [awaiting_none' | exact I].
      * reflexivity.
      * reflexivity.
      * simpl. lia.
      * vm_compute. lia.
    + reflexivity.
    + reflexivity.
  - eexists. split; [|split].
    + refine (query_aborts_with_its_exchange (world := world_wordy) agent 3 question
                nothing_yet [] [] {| choices := [steps] |} {| choices := [final_answer] |}
                steps final_answer _ _ _ _ _).
      * split; [awaiting_none'|]. split; [awaiting_none' | exact I].
      * reflexivity.
      * reflexivity.
      * simpl. lia.
      * vm_compute. lia.
    + reflexivity.
    + reflexivity.
Defined.

(** A single word instead of a list of descriptions: one search a letter,
    accented or not. *)
Lemma search_tools_iterates_its_argument_demo :
  search_tools agent (JString "né") nothing_yet
  = Return found_tools
      {| messages := [];
         attempts := 0;
         events := [EvSearch (JString "n") 3; EvSearch (JString "é") 3] |}.
Proof.
  apply (proj1 (search_tools_iterates_its_argument agent nothing_yet) [110; 233]%N
           [[capital_doc; language_doc]; [capital_doc; language_doc]] found_tools).
  - repeat constructor; eexists; split; reflexivity.
  - vm_compute. repeat constructor.
Defined.

(** The two descriptions of the demonstration. *)
Lemma search_tools_keeps_order_demo :
  exists first later,
    found_tools = first ++ later
    /\ Forall2 (fun d j => json_loads d = Some j) [capital_doc; language_doc] first.
Proof.
  apply (proj1 (proj2 (proj2
           (search_tools_keeps_order agent (JString "find the capital of a country")
              [JString "find the language of a country"]
              [capital_doc; language_doc] [[language_doc; capital_doc]] found_tools
              nothing_yet
              ltac:(repeat constructor; eexists; split; reflexivity)
              ltac:(vm_compute; repeat constructor))))).
Defined.

(** The second query of the demonstration still opens with the system prompt. *)
Lemma system_prompt_leads_demo :
  Forall
    (fun ev =>
       forall req,
         ev = EvCreate req ->
         head (req_messages req) = Some (plain_message "system" (instructions agent)))
    (new_events (final_state first_run) (final_state second_run)).
Proof.
  apply (system_prompt_leads agent 10 "And which language is spoken there?"
           (final_state first_run)).
  - discriminate.
  - vm_compute. by eexists.
Defined.

End ScriptedFurther.
